(** * CardDAV birthdays: the ingestion-and-projection pipeline

    A shallow embedding of the three pieces of
    [custom_components/carddav_birthdays] that carry logic:

    - [CardDavCoordinator._parse_contacts] ([__init__.py]), the Response
      Parser;
    - [CardDavBirthdaySensor._get_next_birthday] ([sensor.py]), the
      Birthday Projector;
    - [CardDavNextBirthdaySensor._get_next_birthday_data] ([sensor.py]),
      the Aggregator.

    Python exceptions are explicit: a computation is a [result], and each
    [try]/[except] of the source is a [try_except] here, with the same
    exception filter.  [date.today()] is an argument. *)

From Stdlib Require Import ZArith Lia Bool List Ascii String.
From stdpp Require Import base option gmap strings.
Import ListNotations.

Local Open Scope string_scope.
Local Open Scope list_scope.
Local Open Scope Z_scope.

(** ** Exceptions and results *)

(** The exception classes the modelled code can meet.  All of them derive
    from [Exception]; [OtherError] stands for any further subclass a
    library call may raise. *)
Inductive exn : Type :=
| ValueError
| IndexError
| StopIteration
| ParseError
| UpdateFailed
| OtherError.

Inductive result (A : Type) : Type :=
| Returns (a : A)
| Raises (e : exn).
Arguments Returns {A} a.
Arguments Raises {A} e.

Definition bind {A B : Type} (m : result A) (k : A -> result B) : result B :=
  match m with
  | Returns a => k a
  | Raises e => Raises e
  end.

Notation "x <-- m ;; k" := (bind m (fun x => k))
  (at level 20, m at level 99, k at level 200, right associativity).

(** [try: body except <filter>: handler]. *)
Definition try_except {A : Type} (body : result A) (catches : exn -> bool)
    (handler : exn -> result A) : result A :=
  match body with
  | Returns a => Returns a
  | Raises e => if catches e then handler e else Raises e
  end.

Definition is_ValueError (e : exn) : bool :=
  match e with ValueError => true | _ => false end.

Definition is_ParseError (e : exn) : bool :=
  match e with ParseError => true | _ => false end.

(** [except Exception]. *)
Definition is_Exception (e : exn) : bool := true.

(** ** [datetime.date] *)

Record date : Type := mkDate { year : Z; month : Z; day : Z }.

Definition MINYEAR : Z := 1.
Definition MAXYEAR : Z := 9999.

Definition _is_leap (y : Z) : bool :=
  (y mod 4 =? 0) && (negb (y mod 100 =? 0) || (y mod 400 =? 0)).

Definition _DAYS_IN_MONTH (m : Z) : Z :=
  match m with
  | 1 => 31 | 2 => 28 | 3 => 31 | 4 => 30 | 5 => 31 | 6 => 30
  | 7 => 31 | 8 => 31 | 9 => 30 | 10 => 31 | 11 => 30 | 12 => 31
  | _ => -1
  end.

Definition _days_in_month (y m : Z) : Z :=
  if (m =? 2) && _is_leap y then 29 else _DAYS_IN_MONTH m.

Definition _DAYS_BEFORE_MONTH (m : Z) : Z :=
  match m with
  | 1 => 0 | 2 => 31 | 3 => 59 | 4 => 90 | 5 => 120 | 6 => 151
  | 7 => 181 | 8 => 212 | 9 => 243 | 10 => 273 | 11 => 304 | 12 => 334
  | _ => -1
  end.

Definition _days_before_year (y : Z) : Z :=
  let y' := y - 1 in
  y' * 365 + y' / 4 - y' / 100 + y' / 400.

Definition _days_before_month (y m : Z) : Z :=
  _DAYS_BEFORE_MONTH m + (if (2 <? m) && _is_leap y then 1 else 0).

Definition _ymd2ord (y m d : Z) : Z :=
  _days_before_year y + _days_before_month y m + d.

(** [_check_date_fields]. *)
Definition check_date_fields (y m d : Z) : bool :=
  (MINYEAR <=? y) && (y <=? MAXYEAR) &&
  (1 <=? m) && (m <=? 12) &&
  (1 <=? d) && (d <=? _days_in_month y m).

Definition valid_date (x : date) : bool :=
  check_date_fields (year x) (month x) (day x).

(** [date(y, m, d)]: [ValueError] outside the calendar. *)
Definition date_new (y m d : Z) : result date :=
  if check_date_fields y m d then Returns (mkDate y m d) else Raises ValueError.

(** [self.replace(year=y)]. *)
Definition date_replace_year (x : date) (y : Z) : result date :=
  date_new y (month x) (day x).

Definition toordinal (x : date) : Z := _ymd2ord (year x) (month x) (day x).

(** [a < b], the comparison of [(year, month, day)] triples. *)
Definition date_ltb (a b : date) : bool :=
  (year a <? year b)
  || ((year a =? year b)
      && ((month a <? month b)
          || ((month a =? month b) && (day a <? day b)))).

Definition date_leb (a b : date) : bool := negb (date_ltb b a).

(** [(a - b).days]. *)
Definition days_between (a b : date) : Z := toordinal a - toordinal b.

(** ** Strings *)

(** [s.startswith('--')]. *)
Definition startswith_dashes (s : string) : bool :=
  match s with
  | String "-" (String "-" _) => true
  | _ => false
  end.

(** [s[2:]]. *)
Definition drop2 (s : string) : string :=
  match s with
  | String _ (String _ r) => r
  | _ => EmptyString
  end.

(** [s.split('T')[0]]. *)
Fixpoint split_T_head (s : string) : string :=
  match s with
  | EmptyString => EmptyString
  | String c r => if Ascii.eqb c "T" then EmptyString else String c (split_T_head r)
  end.

(** [len(s)]. *)
Definition len (s : string) : Z := Z.of_nat (String.length s).

(** ** [datetime.strptime(s, "%Y-%m-%d")]

    [_strptime] compiles the format to the regular expression
    [(?P<Y>\d\d\d\d)-(?P<m>1[0-2]|0[1-9]|[1-9])-(?P<d>3[0-1]|[1-2]\d|0[1-9]|[1-9]| [1-9])],
    matches it at the start of the string, rejects unconverted trailing
    data, converts the groups with [int] and builds the date.  A character
    is one of the 256 code points of [ascii], among which [\d] is the
    class of the ten digits. *)

Definition in_class (lo hi : ascii) (c : ascii) : bool :=
  (N_of_ascii lo <=? N_of_ascii c)%N && (N_of_ascii c <=? N_of_ascii hi)%N.

Definition is_digit (c : ascii) : bool := in_class "0" "9" c.

Definition digit_val (c : ascii) : Z := Z.of_N (N_of_ascii c) - 48.

(** One alternative of a group: the characters it consumes, by class. *)
Definition alternative : Type := list (ascii -> bool).

(** Match an alternative at the head of [s]: the [int] value of the
    consumed text (a leading space counts for nothing) and the rest. *)
Fixpoint match_alternative (alt : alternative) (acc : Z) (s : string)
    : option (Z * string) :=
  match alt with
  | [] => Some (acc, s)
  | p :: alt' =>
      match s with
      | String c r =>
          if p c
          then match_alternative alt'
                 (if Ascii.eqb c " " then acc else 10 * acc + digit_val c) r
          else None
      | EmptyString => None
      end
  end.

(** Ordered alternation followed by the continuation [k] of the pattern:
    the first alternative after which [k] succeeds wins (backtracking). *)
Fixpoint match_group {A : Type} (alts : list alternative) (s : string)
    (k : Z -> string -> option A) : option A :=
  match alts with
  | [] => None
  | alt :: alts' =>
      match match_alternative alt 0 s with
      | Some (v, r) =>
          match k v r with
          | Some a => Some a
          | None => match_group alts' s k
          end
      | None => match_group alts' s k
      end
  end.

Definition match_literal_dash {A : Type} (s : string) (k : string -> option A)
    : option A :=
  match s with
  | String "-" r => k r
  | _ => None
  end.

Definition group_Y : list alternative :=
  [[is_digit; is_digit; is_digit; is_digit]].

Definition group_m : list alternative :=
  [[in_class "1" "1"; in_class "0" "2"];
   [in_class "0" "0"; in_class "1" "9"];
   [in_class "1" "9"]].

Definition group_d : list alternative :=
  [[in_class "3" "3"; in_class "0" "1"];
   [in_class "1" "2"; is_digit];
   [in_class "0" "0"; in_class "1" "9"];
   [in_class "1" "9"];
   [in_class " " " "; in_class "1" "9"]].

(** [format_regex.match(data_string)]: the groups and what is left. *)
Definition regex_Ymd (s : string) : option (Z * Z * Z * string) :=
  match_group group_Y s (fun y s1 =>
  match_literal_dash s1 (fun s2 =>
  match_group group_m s2 (fun m s3 =>
  match_literal_dash s3 (fun s4 =>
  match_group group_d s4 (fun d s5 =>
  Some (y, m, d, s5)))))).

Definition strptime_Ymd (s : string) : result date :=
  match regex_Ymd s with
  | None => Raises ValueError
  | Some (y, m, d, EmptyString) => date_new y m d
  | Some (_, _, _, String _ _) => Raises ValueError
  end.

(** [x.isoformat()], the canonical [YYYY-MM-DD] text of a date, and the
    year-less [--MM-DD] text of a month and a day. *)
Definition digit_char (k : Z) : ascii := ascii_of_N (Z.to_N (48 + k)).

Definition two_digits (n : Z) : string :=
  String (digit_char (n / 10)) (String (digit_char (n mod 10)) EmptyString).

Definition four_digits (n : Z) : string :=
  String (digit_char (n / 1000))
    (String (digit_char (n / 100 mod 10)) (two_digits (n mod 100))).

Definition month_day_text (m d : Z) : string :=
  String "-" (two_digits m +:+ String "-" (two_digits d)).

Definition isoformat (x : date) : string :=
  four_digits (year x) +:+ month_day_text (month x) (day x).

Definition yearless (m d : Z) : string := String "-" (month_day_text m d).

(** ** The Contact Record ([__init__.py], [class Contact]) *)

Record Contact : Type := mkContact {
  uid : string;
  name : string;
  birthday : string
}.

(** [l[0]]. *)
Definition index0 {A : Type} (l : list A) : result A :=
  match l with
  | x :: _ => Returns x
  | [] => Raises IndexError
  end.

(** [for x in l: s = body(s, x)], stopping at the first exception that
    leaves the body. *)
Fixpoint for_each {A S : Type} (l : list A) (s : S) (body : S -> A -> result S)
    : result S :=
  match l with
  | [] => Returns s
  | x :: l' => s' <-- body s x ;; for_each l' s' body
  end.

(** ** The projection shared by both sensors

    [sensor.py] writes the same statements twice, in
    [CardDavBirthdaySensor._get_next_birthday] after the parse and in the
    loop of [CardDavNextBirthdaySensor._get_next_birthday_data]. *)

(** [try: bday.replace(year=y) except ValueError: date(y, 3, 1)]. *)
Definition replace_or_march_1 (bday : date) (y : Z) : result date :=
  try_except (date_replace_year bday y) is_ValueError
    (fun _ => date_new y 3 1).

Definition next_birthday (bday today : date) : result date :=
  next_bday <-- replace_or_march_1 bday (year today) ;;
  if date_ltb next_bday today
  then replace_or_march_1 bday (year today + 1)
  else Returns next_bday.

Definition age_turning (has_year : bool) (next_bday bday : date) : option Z :=
  if has_year then Some (year next_bday - year bday) else None.

(** ** The Birthday Projector *)

Module CardDavBirthdaySensor.

(** The body of the outer [try] of [_get_next_birthday]. *)
Definition body (bday_str : string) (today : date)
    : result (option date * option Z) :=
  let calculate (bday : date) (has_year : bool) :=
    next_bday <-- next_birthday bday today ;;
    Returns (Some next_bday, age_turning has_year next_bday bday) in
  if 10 <=? len bday_str then
    match strptime_Ymd (split_T_head bday_str) with
    | Returns bday => calculate bday true
    | Raises e =>
        if is_ValueError e then Returns (None, None) else Raises e
    end
  else if startswith_dashes bday_str then
    match strptime_Ymd ("2000" +:+ drop2 bday_str) with
    | Returns bday => calculate bday false
    | Raises e =>
        if is_ValueError e then Returns (None, None) else Raises e
    end
  else Returns (None, None).

Definition _get_next_birthday (bday_str : string) (today : date)
    : result (option date * option Z) :=
  try_except (body bday_str today) is_Exception
    (fun _ => Returns (None, None)).

End CardDavBirthdaySensor.

(** ** The Aggregator *)

Module CardDavNextBirthdaySensor.

(** One tuple [(days_diff, next_bday, contact.name, age)] of [upcoming]. *)
Record item : Type := mkItem {
  days_diff : Z;
  next_bday : date;
  item_name : string;
  age : option Z
}.

(** The third component of the answer: one age, or the list of them. *)
Inductive ages : Type :=
| OneAge (a : option Z)
| AgeList (l : list (option Z)).

(** [x == y] on [int | None]. *)
Definition age_eqb (x y : option Z) : bool :=
  match x, y with
  | Some a, Some b => a =? b
  | None, None => true
  | _, _ => false
  end.

(** [list.sort(key=...)] is stable: equal keys keep their order.
    Insertion from the right puts an element before the first one whose
    key is not smaller, which is the one stable arrangement. *)
Fixpoint insert_by_days (x : item) (l : list item) : list item :=
  match l with
  | [] => [x]
  | y :: l' =>
      if days_diff x <=? days_diff y then x :: y :: l'
      else y :: insert_by_days x l'
  end.

Definition sort_by_days (l : list item) : list item :=
  fold_right insert_by_days [] l.

(** The [try] block of the loop; [None] is its [continue]. *)
Definition try_contact (today : date) (contact : Contact) : result (option item) :=
  let bday_str := birthday contact in
  let calculate (bday : date) (has_year : bool) :=
    next_bday <-- next_birthday bday today ;;
    let days_diff := days_between next_bday today in
    Returns (Some (mkItem days_diff next_bday (name contact)
                     (age_turning has_year next_bday bday))) in
  if 10 <=? len bday_str then
    bday <-- strptime_Ymd (split_T_head bday_str) ;;
    calculate bday true
  else if startswith_dashes bday_str then
    bday <-- strptime_Ymd ("2000" +:+ drop2 bday_str) ;;
    calculate bday false
  else Returns None.

Definition loop_body (today : date) (upcoming : list item) (contact : Contact)
    : result (list item) :=
  try_except
    (r <-- try_contact today contact ;;
     match r with
     | Some it => Returns (upcoming ++ [it])
     | None => Returns upcoming
     end)
    is_Exception (fun _ => Returns upcoming).

Definition empty_answer : option date * list string * ages :=
  (None, [], OneAge None).

Definition _get_next_birthday_data (contacts : list Contact) (today : date)
    : result (option date * list string * ages) :=
  match contacts with
  | [] => Returns empty_answer
  | _ :: _ =>
      upcoming <-- for_each contacts [] (loop_body today) ;;
      match upcoming with
      | [] => Returns empty_answer
      | _ :: _ =>
          let upcoming := sort_by_days upcoming in
          first <-- index0 upcoming ;;
          let min_days := days_diff first in
          let matches :=
            List.filter (fun x => days_diff x =? min_days) upcoming in
          match0 <-- index0 matches ;;
          let final_date := next_bday match0 in
          let final_names := List.map item_name matches in
          let final_ages := List.map age matches in
          age0 <-- index0 final_ages ;;
          let final_age :=
            if forallb (fun x => age_eqb x age0) final_ages
            then OneAge age0 else AgeList final_ages in
          Returns (Some final_date, final_names, final_age)
      end
  end.

End CardDavNextBirthdaySensor.

(** ** The Response Parser *)

(** [xml.etree.ElementTree]: a parsed element with its qualified tag
    [{namespace}local], its text and its children in document order. *)
Module ET.

#[warnings="-register-all"]
Inductive Element : Type :=
| mkElement (tag : string) (text : option string) (children : list Element).

Definition tag (e : Element) : string :=
  match e with mkElement t _ _ => t end.

Definition text (e : Element) : option string :=
  match e with mkElement _ x _ => x end.

Definition children (e : Element) : list Element :=
  match e with mkElement _ _ cs => cs end.

(** [e.iter()]: the element, then its descendants, in document order. *)
Fixpoint iter (e : Element) : list Element :=
  match e with
  | mkElement _ _ cs =>
      e :: (fix iter_all (l : list Element) : list Element :=
              match l with
              | [] => []
              | c :: l' => iter c ++ iter_all l'
              end) cs
  end.

(** [root.findall(".//" + qname)]: every proper descendant of [root]
    with that qualified tag. *)
Definition findall_descendants (qname : string) (root : Element)
    : list Element :=
  List.filter (fun e => String.eqb (tag e) qname)
    (List.flat_map iter (children root)).

End ET.

(** [vobject]: a parsed component maps lower-cased property names to the
    content lines of that name; only [value] of a line is read. *)
Module vobject.

Record ContentLine : Type := mkContentLine { value : string }.

Record Component : Type := mkComponent {
  contents : gmap string (list ContentLine)
}.

End vobject.

Module CardDavCoordinator.

Definition address_data : string :=
  "{urn:ietf:params:xml:ns:carddav}address-data".

(** Truthiness of [str | None]. *)
Definition truthy (s : option string) : bool :=
  match s with
  | None => false
  | Some EmptyString => false
  | Some (String _ _) => true
  end.

Section Libraries.

(** The two library parsers, [ET.fromstring] and [vobject.readOne],
    with whatever they raise. *)
Variable fromstring : string -> result ET.Element.
Variable readOne : string -> result vobject.Component.

(** The inner [try] block for one card; [None] is [continue] or a
    card without [BDAY]. *)
Definition try_card (vcard_str : string) : result (option Contact) :=
  vcard <-- readOne vcard_str ;;
  uid <-- match vobject.contents vcard !! "uid" with
          | Some lines =>
              line <-- index0 lines ;; Returns (Some (vobject.value line))
          | None => Returns None
          end ;;
  match uid with
  | Some uid_value =>
      if truthy uid then
        fn <-- match vobject.contents vcard !! "fn" with
               | Some lines =>
                   line <-- index0 lines ;; Returns (vobject.value line)
               | None => Returns "Unknown"
               end ;;
        match vobject.contents vcard !! "bday" with
        | Some lines =>
            line <-- index0 lines ;;
            Returns (Some (mkContact uid_value fn (vobject.value line)))
        | None => Returns None
        end
      else Returns None
  | None => Returns None
  end.

Definition loop_body (contacts : list Contact) (elem : ET.Element)
    : result (list Contact) :=
  if truthy (ET.text elem) then
    match ET.text elem with
    | Some vcard_str =>
        try_except
          (r <-- try_card vcard_str ;;
           match r with
           | Some c => Returns (contacts ++ [c])
           | None => Returns contacts
           end)
          is_Exception (fun _ => Returns contacts)
    | None => Returns contacts
    end
  else Returns contacts.

Definition _parse_contacts (xml_text : string) : result (list Contact) :=
  try_except
    (root <-- fromstring xml_text ;;
     let address_data_elements :=
       ET.findall_descendants address_data root in
     for_each address_data_elements [] loop_body)
    is_ParseError (fun _ => Raises UpdateFailed).

(** [_fetch_contacts], given what the [REPORT] request produced: the
    status and the body text, or the exception of the transport. *)
Definition _fetch_contacts (response : result (Z * string))
    : result (list Contact) :=
  r <-- response ;;
  let '(status, text) := r in
  if negb (status =? 207) && negb (status =? 200)
  then Raises UpdateFailed
  else _parse_contacts text.

Definition _async_update_data (response : result (Z * string))
    : result (list Contact) :=
  try_except (_fetch_contacts response) is_Exception
    (fun _ => Raises UpdateFailed).

End Libraries.

End CardDavCoordinator.

(** ** The vocabulary of the specification *)

(** The occurrence of the month and day of [b] in year [y], with March 1
    standing in when that day does not exist in [y]. *)
Definition occurrence (b : date) (y : Z) : date :=
  if check_date_fields y (month b) (day b)
  then mkDate y (month b) (day b)
  else mkDate y 3 1.

(** [a <= b] on dates, as a proposition. *)
Definition date_le (a b : date) : Prop := date_ltb b a = false.

Module Aggregate.

Import CardDavBirthdaySensor CardDavNextBirthdaySensor.

(** A record that survives: the Projector gave it a date.  Its
    [days_until] is [(next_occurrence - today).days]. *)
Definition project (today : date) (c : Contact) : option item :=
  match _get_next_birthday (birthday c) today with
  | Returns (Some d, a) => Some (mkItem (days_between d today) d (name c) a)
  | _ => None
  end.

Definition survivors (today : date) (contacts : list Contact) : list item :=
  omap (project today) contacts.

(** The minimum [days_until] of a list of survivors. *)
Definition min_days_until (l : list item) : Z :=
  match l with
  | [] => 0
  | x :: l' => fold_right Z.min (days_diff x) (List.map days_diff l')
  end.

(** The tie group: the survivors at the minimum, in their order. *)
Definition tie_group (today : date) (contacts : list Contact) : list item :=
  let s := survivors today contacts in
  List.filter (fun x => days_diff x =? min_days_until s) s.

(** The answer of the Aggregator, read off a tie group. *)
Definition answer_of (ties : list item) : option date * list string * ages :=
match ties with
| [] => empty_answer
| m0 :: _ =>
    (Some (next_bday m0), List.map item_name ties,
     if forallb (fun a => age_eqb a (age m0)) (List.map age ties)
     then OneAge (age m0) else AgeList (List.map age ties))
end.

End Aggregate.

(** Three contacts with birthdays 3, 5 and 5 days after 2025-01-01, and
    two contacts of different birth years sharing a birthday. *)
Definition contacts_ABC : list Contact :=
  [mkContact "uid-a" "A" "1990-01-04";
   mkContact "uid-b" "B" "1985-01-06";
   mkContact "uid-c" "C" "2001-01-06"].

Definition contacts_BD : list Contact :=
  [mkContact "uid-b" "B" "1985-01-06";
   mkContact "uid-d" "D" "1990-01-06T00:00:00"].

Definition new_year_2025 : date := mkDate 2025 1 1.

Module Cards.

Import vobject.

(** Steps 3 to 8 of the Response Parser for one [address-data] element:
    the record it contributes, if any. *)
Definition card_record (readOne : string -> result Component)
    (elem : ET.Element) : option Contact :=
  match ET.text elem with
  | Some (String _ _ as vcard_str) =>
      match readOne vcard_str with
      | Returns vcard =>
          match contents vcard !! "uid", contents vcard !! "bday" with
          | Some (u :: _), Some (b :: _) =>
              match value u with
              | EmptyString => None
              | String _ _ =>
                  match contents vcard !! "fn" with
                  | None => Some (mkContact (value u) "Unknown" (value b))
                  | Some (f :: _) =>
                      Some (mkContact (value u) (value f) (value b))
                  | Some [] => None
                  end
              end
          | _, _ => None
          end
      | Raises _ => None
      end
  | _ => None
  end.

(** A card with [UID]; [lacks_uid] is its absence. *)
Definition lacks (prop : string) (vcard : Component) : Prop :=
  contents vcard !! prop = None.

(** The card of [elem] parses and has no property [prop]. *)
Definition card_lacks (readOne : string -> result Component) (prop : string)
    (elem : ET.Element) : Prop :=
exists vcard_str vcard,
  ET.text elem = Some vcard_str
  /\ readOne vcard_str = Returns vcard
  /\ lacks prop vcard.

(** The card of [elem] does not parse. *)
Definition card_unparsable (readOne : string -> result Component)
    (elem : ET.Element) : Prop :=
exists vcard_str e,
  ET.text elem = Some vcard_str /\ readOne vcard_str = Raises e.

(** The card of [elem] has a [UID] whose value is the empty string. *)
Definition card_empty_uid (readOne : string -> result Component)
    (elem : ET.Element) : Prop :=
exists vcard_str vcard u us,
  ET.text elem = Some vcard_str
  /\ readOne vcard_str = Returns vcard
  /\ contents vcard !! "uid" = Some (u :: us)
  /\ value u = EmptyString.

(** A well-formed card, and the Contact Record [c] the specification
    gives it: the card parses, has a non-empty [UID] and a [BDAY]; the
    name is [FN], or the placeholder without one. *)
Definition well_formed (readOne : string -> result Component)
    (elem : ET.Element) (c : Contact) : Prop :=
exists vcard_str vcard u us b bs,
  ET.text elem = Some vcard_str
  /\ vcard_str <> EmptyString
  /\ readOne vcard_str = Returns vcard
  /\ contents vcard !! "uid" = Some (u :: us)
  /\ value u <> EmptyString
  /\ contents vcard !! "bday" = Some (b :: bs)
  /\ uid c = value u
  /\ birthday c = value b
  /\ (contents vcard !! "fn" = None /\ name c = "Unknown"
      \/ exists f fs, contents vcard !! "fn" = Some (f :: fs)
                      /\ name c = value f).

End Cards.

(** An envelope with two [address-data] entries, the first without
    [UID]; a toy [ET.fromstring] that knows this one document and a toy
    [vobject.readOne] that knows its two cards. *)
Module Example.

Import vobject.

Definition card_without_uid : Component :=
  mkComponent {[ "fn" := [mkContentLine "Ann"];
                 "bday" := [mkContentLine "1990-01-04"] ]}.

Definition card_of_bob : Component :=
  mkComponent {[ "uid" := [mkContentLine "uid-bob"];
                 "fn" := [mkContentLine "Bob"];
                 "bday" := [mkContentLine "1985-01-06"] ]}.

Definition entry (vcard_str : string) : ET.Element :=
  ET.mkElement "{DAV:}response" None
    [ET.mkElement "{DAV:}propstat" None
       [ET.mkElement "{DAV:}prop" None
          [ET.mkElement CardDavCoordinator.address_data (Some vcard_str) []]]].

Definition multistatus : ET.Element :=
  ET.mkElement "{DAV:}multistatus" None [entry "card ann"; entry "card bob"].

Definition fromstring (xml_text : string) : result ET.Element :=
  if String.eqb xml_text "<multistatus/>" then Returns multistatus
  else Raises ParseError.

Definition readOne (vcard_str : string) : result Component :=
  if String.eqb vcard_str "card ann" then Returns card_without_uid
  else if String.eqb vcard_str "card bob" then Returns card_of_bob
  else Raises StopIteration.

End Example.

(** What the specification promises of the Projector for the full-date
    birthday [b] on the day [today]: a date not before [today], which is
    the occurrence in this year or in the next, and [today] itself on the
    birthday. *)
Definition projects_forward (b today : date) : Prop :=
  exists (n : date) (a : option Z),
    CardDavBirthdaySensor._get_next_birthday (isoformat b) today
    = Returns (Some n, a)
    /\ date_le today n
    /\ (n = occurrence b (year today) \/ n = occurrence b (year today + 1))
    /\ (month b = month today -> day b = day today -> n = today).

(** Linear arithmetic with division and remainder by constants. *)
Ltac div_lia := Z.to_euclidean_division_equations; lia.

(** * The rest of the integration *)

(** A computation that ends with a value or with an error of its own
    kind, for the code whose exceptions are not those of [exn]. *)
Inductive outcome (E A : Type) : Type :=
| Done (a : A)
| Failed (e : E).
Arguments Done {E A} a.
Arguments Failed {E A} e.

(** ** [CardDavBirthdaySensor], outside the [try] of [_get_next_birthday] *)

Module BirthdayEntity.

(** [self._attr_unique_id] and [self._attr_name] of [__init__]. *)
Definition unique_id (contact : Contact) : string :=
uid contact +:+ "_birthday".

Definition entity_name (contact : Contact) : string :=
name contact +:+ " Birthday".

(** [next((c for c in self.coordinator.data if c.uid == self.contact.uid),
    self.contact)]. *)
Definition current_contact (data : list Contact) (contact : Contact) : Contact :=
match List.find (fun c => String.eqb (uid c) (uid contact)) data with
| Some c => c
| None => contact
end.

(** The whole method: the new [self.contact] and the answer. *)
Definition _get_next_birthday (data : list Contact) (contact : Contact)
    (today : date) : Contact * result (option date * option Z) :=
let contact := current_contact data contact in
(contact, CardDavBirthdaySensor._get_next_birthday (birthday contact) today).

Definition native_value (data : list Contact) (contact : Contact)
    (today : date) : Contact * result (option date) :=
let '(contact, r) := _get_next_birthday data contact today in
(contact, r' <-- r ;; Returns (fst r')).

Record attributes : Type := mkAttributes {
  friendly_name : string;
  original_birthday : string;
  attr_age_turning : option Z;
  days_until : option Z
}.

(** [extra_state_attributes] reads the clock twice: [today] inside
    [_get_next_birthday], [today'] for [days_until]. *)
Definition extra_state_attributes (data : list Contact) (contact : Contact)
    (today today' : date) : Contact * result attributes :=
let '(contact, r) := _get_next_birthday data contact today in
(contact,
 r' <-- r ;;
 let '(next_bday, age) := r' in
 Returns (mkAttributes (name contact) (birthday contact) age
            match next_bday with
            | Some n => Some (days_between n today')
            | None => None
            end)).

End BirthdayEntity.

(** ** [CardDavNextBirthdaySensor], around [_get_next_birthday_data] *)

Module NextBirthdayEntity.

Import CardDavNextBirthdaySensor.

Definition unique_id : string := "carddav_next_birthday".

Definition native_value (contacts : list Contact) (today : date)
    : result (option date) :=
r <-- _get_next_birthday_data contacts today ;;
let '(next_bday, _, _) := r in
Returns next_bday.

Record attributes : Type := mkAttributes {
  friendly_name : string;
  names : list string;
  attr_age_turning : ages;
  days_until : option Z
}.

Definition extra_state_attributes (contacts : list Contact)
    (today today' : date) : result attributes :=
r <-- _get_next_birthday_data contacts today ;;
let '(next_bday, names, age) := r in
Returns (mkAttributes "Next Birthday" names age
           match next_bday with
           | Some n => Some (days_between n today')
           | None => None
           end).

End NextBirthdayEntity.

(** ** The sensor platform ([sensor.py], [async_setup_entry]) *)

Module SensorPlatform.

Inductive entity : Type :=
| BirthdaySensor (contact : Contact)
| NextBirthdaySensor.

(** One turn of the first loop: a sensor for the contact, its [uid]
    remembered. *)
Definition setup_step (st : list entity * gset string) (contact : Contact)
    : list entity * gset string :=
(fst st ++ [BirthdaySensor contact], {[uid contact]} ∪ snd st).

(** [async_setup_entry]: the entities handed to [async_add_entities] and
    [created_uids]. *)
Definition async_setup_entry (data : list Contact)
    : list entity * gset string :=
let '(entities, created_uids) := fold_left setup_step data ([], ∅) in
(entities ++ [NextBirthdaySensor], created_uids).

(** One turn of the loop of [_on_coordinator_update]: a sensor only for
    a [uid] not yet in [created_uids]. *)
Definition update_step (st : list entity * gset string) (contact : Contact)
    : list entity * gset string :=
if bool_decide (uid contact ∈ snd st) then st
else (fst st ++ [BirthdaySensor contact], {[uid contact]} ∪ snd st).

(** [_on_coordinator_update]: the new entities (none handed over when the
    list is empty) and [created_uids] afterwards. *)
Definition _on_coordinator_update (current_data : list Contact)
    (created_uids : gset string) : list entity * gset string :=
match current_data with
| [] => ([], created_uids)
| _ :: _ => fold_left update_step current_data ([], created_uids)
end.

(** The [uid]s of the birthday sensors of a list of entities. *)
Definition entity_uids (entities : list entity) : list string :=
omap (fun e => match e with
               | BirthdaySensor c => Some (uid c)
               | NextBirthdaySensor => None
               end) entities.

End SensorPlatform.

(** ** The integration entry points ([__init__.py]) *)

Module Integration.

Definition DOMAIN : string := "carddav_birthdays".

Inductive store_error : Type :=
| KeyError (key : string)
| RefreshError (e : exn).

Section Store.

(** The coordinator object is opaque here; [hass.data] maps a domain to
    the dictionary of its entries. *)
Variable Coordinator : Type.

(** [async_setup_entry], given what the first refresh did. *)
Definition async_setup_entry (coordinator : Coordinator)
    (first_refresh : result (list Contact)) (entry_id : string)
    (hass_data : gmap string (gmap string Coordinator))
    : outcome store_error (bool * gmap string (gmap string Coordinator)) :=
match first_refresh with
| Raises e => Failed (RefreshError e)
| Returns _ =>
    let hass_data :=
      match hass_data !! DOMAIN with
      | Some _ => hass_data
      | None => <[DOMAIN := ∅]> hass_data
      end in
    match hass_data !! DOMAIN with
    | Some entries =>
        Done (true, <[DOMAIN := <[entry_id := coordinator]> entries]> hass_data)
    | None => Failed (KeyError DOMAIN)
    end
end.

(** [async_unload_entry], given what [async_unload_platforms] returned. *)
Definition async_unload_entry (unload_ok : bool) (entry_id : string)
    (hass_data : gmap string (gmap string Coordinator))
    : outcome store_error (bool * gmap string (gmap string Coordinator)) :=
if unload_ok then
  match hass_data !! DOMAIN with
  | Some entries =>
      match entries !! entry_id with
      | Some _ => Done (true, <[DOMAIN := delete entry_id entries]> hass_data)
      | None => Failed (KeyError entry_id)
      end
  | None => Failed (KeyError DOMAIN)
  end
else Done (false, hass_data).

(** [hass.data[DOMAIN][entry_id]], when both keys are there. *)
Definition coordinator_of (entry_id : string)
    (hass_data : gmap string (gmap string Coordinator)) : option Coordinator :=
match hass_data !! DOMAIN with
| Some entries => entries !! entry_id
| None => None
end.

End Store.

End Integration.

(** ** The config flow ([config_flow.py]) *)

Module ConfigFlow.

(** The user input, validated by [STEP_USER_DATA_SCHEMA]: three required
    strings and the optional flag. *)
Record user_input : Type := mkUserInput {
  url : string;
  username : string;
  password : string;
  verify_ssl : option bool
}.

(** What [session.get] can raise, and what the flow raises. *)
Inductive transport_error : Type :=
| ClientError
| OtherTransportError.

Inductive flow_error : Type :=
| CannotConnect
| InvalidAuth
| Unexpected.

Inductive flow_result : Type :=
| CreateEntry (title : string) (data : user_input)
| ShowForm (errors : gmap string string).

Section Flow.

(** [session.get(url, auth=BasicAuth(username, password), ssl=...)]: the
    status of the response, or the exception. *)
Variable get : string -> string -> string -> bool -> outcome transport_error Z.

(** The request of [validate_input], which takes [ssl] to be [True]
    when the flag is absent. *)
Definition probe (data : user_input) : outcome transport_error Z :=
get (url data) (username data) (password data)
  (match verify_ssl data with Some b => b | None => true end).

Definition validate_input (data : user_input) : outcome flow_error string :=
match get (url data) (username data) (password data)
        (match verify_ssl data with Some b => b | None => true end) with
| Done status =>
    if status =? 401 then Failed InvalidAuth
    else if 500 <=? status then Failed CannotConnect
    else Done (username data)
| Failed ClientError => Failed CannotConnect
| Failed OtherTransportError => Failed Unexpected
end.

Definition async_step_user (input : option user_input) : flow_result :=
match input with
| Some data =>
    match validate_input data with
    | Failed CannotConnect => ShowForm {[ "base" := "cannot_connect" ]}
    | Failed InvalidAuth => ShowForm {[ "base" := "invalid_auth" ]}
    | Failed Unexpected => ShowForm {[ "base" := "unknown" ]}
    | Done title => CreateEntry title data
    end
| None => ShowForm ∅
end.

End Flow.

End ConfigFlow.

(** Case analysis on a digit, a month and a day of the month. *)
Ltac digit_cases k :=
  let H := fresh "H" in
  assert (H : k = 0 \/ k = 1 \/ k = 2 \/ k = 3 \/ k = 4 \/ k = 5 \/ k = 6
              \/ k = 7 \/ k = 8 \/ k = 9) by lia;
  repeat (destruct H as [H | H]; [subst k | ]); [ .. | subst k].

Ltac month_cases m :=
  let H := fresh "H" in
  assert (H : m = 1 \/ m = 2 \/ m = 3 \/ m = 4 \/ m = 5 \/ m = 6 \/ m = 7
              \/ m = 8 \/ m = 9 \/ m = 10 \/ m = 11 \/ m = 12) by lia;
  repeat (destruct H as [H | H]; [subst m | ]); [ .. | subst m].

Ltac day_cases d :=
  let H := fresh "H" in
  assert (H : d = 1 \/ d = 2 \/ d = 3 \/ d = 4 \/ d = 5 \/ d = 6 \/ d = 7
              \/ d = 8 \/ d = 9 \/ d = 10 \/ d = 11 \/ d = 12 \/ d = 13
              \/ d = 14 \/ d = 15 \/ d = 16 \/ d = 17 \/ d = 18 \/ d = 19
              \/ d = 20 \/ d = 21 \/ d = 22 \/ d = 23 \/ d = 24 \/ d = 25
              \/ d = 26 \/ d = 27 \/ d = 28 \/ d = 29 \/ d = 30 \/ d = 31)
    by lia;
  repeat (destruct H as [H | H]; [subst d | ]); [ .. | subst d].

(** * Properties *)

(** ** Results *)

Lemma try_except_Exception_returns {A : Type} (m : result A) (a : A) :
  exists r, try_except m is_Exception (fun _ => Returns a) = Returns r.
Proof. destruct m as [x | e]; simpl; eauto. Qed.

(** ** Digits and [strptime] *)

Lemma is_digit_digit_char (k : Z) : 0 <= k <= 9 -> is_digit (digit_char k) = true.
Proof. intros Hk. digit_cases k; reflexivity. Qed.

Lemma digit_val_digit_char (k : Z) : 0 <= k <= 9 -> digit_val (digit_char k) = k.
Proof. intros Hk. digit_cases k; reflexivity. Qed.

Lemma digit_char_not_space (k : Z) :
  0 <= k <= 9 -> Ascii.eqb (digit_char k) " " = false.
Proof. intros Hk. digit_cases k; reflexivity. Qed.

Lemma digit_char_not_T (k : Z) :
  0 <= k <= 9 -> Ascii.eqb (digit_char k) "T" = false.
Proof. intros Hk. digit_cases k; reflexivity. Qed.

Lemma append_String (c : ascii) (s t : string) :
  String c s +:+ t = String c (s +:+ t).
Proof. reflexivity. Qed.

Lemma append_EmptyString (t : string) : EmptyString +:+ t = t.
Proof. reflexivity. Qed.

Lemma match_group_single {A : Type} (alt : alternative) (s : string)
    (k : Z -> string -> option A) :
  match_group [alt] s k =
  match match_alternative alt 0 s with
  | Some (v, r) => k v r
  | None => None
  end.
Proof.
  simpl. destruct (match_alternative alt 0 s) as [[v r] | ]; [ | reflexivity].
  destruct (k v r); reflexivity.
Qed.

Lemma match_year_digits (a b c d : Z) (r : string) :
  0 <= a <= 9 -> 0 <= b <= 9 -> 0 <= c <= 9 -> 0 <= d <= 9 ->
  match_alternative [is_digit; is_digit; is_digit; is_digit] 0
    (String (digit_char a) (String (digit_char b)
       (String (digit_char c) (String (digit_char d) r))))
  = Some (1000 * a + 100 * b + 10 * c + d, r).
Proof.
  intros Ha Hb Hc Hd. cbn [match_alternative].
  rewrite !is_digit_digit_char, !digit_char_not_space, !digit_val_digit_char
    by assumption.
  f_equal. f_equal. lia.
Qed.

(** The tail of the pattern, after the year group, on [-MM-DD]. *)
Lemma regex_month_day (y m d : Z) :
  1 <= m <= 12 -> 1 <= d <= 31 ->
  match_literal_dash (month_day_text m d) (fun s2 =>
    match_group group_m s2 (fun m' s3 =>
    match_literal_dash s3 (fun s4 =>
    match_group group_d s4 (fun d' s5 => Some (y, m', d', s5)))))
  = Some (y, m, d, EmptyString).
Proof.
  intros Hm Hd. month_cases m; day_cases d; reflexivity.
Qed.

Lemma days_in_month_le_31 (y m : Z) : _days_in_month y m <= 31.
Proof.
  unfold _days_in_month, _DAYS_IN_MONTH.
  destruct ((m =? 2) && _is_leap y); [lia | ].
  destruct m as [ | p | p]; try lia.
  do 4 (destruct p as [p | p | ]; try lia).
Qed.

Lemma valid_date_bounds (y m d : Z) :
  check_date_fields y m d = true ->
  1 <= y <= 9999 /\ 1 <= m <= 12 /\ 1 <= d <= _days_in_month y m.
Proof.
  unfold check_date_fields, MINYEAR, MAXYEAR. intros H.
  repeat (apply andb_prop in H; destruct H as [H ?]). lia.
Qed.

Lemma four_digit_value (y : Z) :
  0 <= y ->
  1000 * (y / 1000) + 100 * (y / 100 mod 10)
  + 10 * (y mod 100 / 10) + y mod 100 mod 10 = y.
Proof. intros Hy. div_lia. Qed.

Lemma regex_isoformat (b : date) :
  valid_date b = true ->
  regex_Ymd (isoformat b) = Some (year b, month b, day b, EmptyString).
Proof.
  destruct b as [y m d]. unfold valid_date. cbn [year month day]. intros Hv.
  apply valid_date_bounds in Hv. destruct Hv as (Hy & Hm & Hd).
  pose proof (days_in_month_le_31 y m) as H31.
  unfold regex_Ymd, isoformat, four_digits, two_digits, group_Y.
  cbn [year month day]. rewrite !append_String, append_EmptyString.
  rewrite match_group_single, match_year_digits by div_lia.
  rewrite four_digit_value by lia.
  apply regex_month_day; lia.
Qed.

Lemma strptime_isoformat (b : date) :
  valid_date b = true -> strptime_Ymd (isoformat b) = Returns b.
Proof.
  intros Hv. unfold strptime_Ymd. rewrite regex_isoformat by assumption.
  unfold date_new. unfold valid_date in Hv. rewrite Hv.
  destruct b; reflexivity.
Qed.

Lemma split_T_head_isoformat (b : date) :
  valid_date b = true -> split_T_head (isoformat b) = isoformat b.
Proof.
  destruct b as [y m d]. unfold valid_date. cbn [year month day]. intros Hv.
  apply valid_date_bounds in Hv. destruct Hv as (Hy & Hm & Hd).
  pose proof (days_in_month_le_31 y m) as H31.
  unfold isoformat, four_digits, month_day_text, two_digits.
  cbn [year month day]. rewrite !append_String, !append_EmptyString.
  cbn [split_T_head]. rewrite !digit_char_not_T by div_lia. reflexivity.
Qed.

Lemma len_isoformat (b : date) : len (isoformat b) = 10.
Proof. reflexivity. Qed.

(** ** Dates *)

Lemma check_march_1 (y : Z) : 1 <= y <= 9999 -> check_date_fields y 3 1 = true.
Proof.
  intros Hy. unfold check_date_fields, MINYEAR, MAXYEAR.
  change (_days_in_month y 3) with 31.
  repeat (apply andb_true_intro; split); lia.
Qed.

Lemma check_year_range (y m d : Z) :
  check_date_fields y m d = true -> 1 <= y <= 9999.
Proof. intros H. apply valid_date_bounds in H. lia. Qed.

Lemma check_above_MAXYEAR (y m d : Z) :
  MAXYEAR < y -> check_date_fields y m d = false.
Proof.
  intros Hy. unfold check_date_fields.
  replace (y <=? MAXYEAR) with false by lia.
  rewrite andb_false_r. reflexivity.
Qed.

Lemma year_occurrence (b : date) (y : Z) : year (occurrence b y) = y.
Proof. unfold occurrence. destruct (check_date_fields _ _ _); reflexivity. Qed.

Lemma valid_occurrence (b : date) (y : Z) :
  1 <= y <= 9999 -> valid_date (occurrence b y) = true.
Proof.
  intros Hy. unfold occurrence.
  destruct (check_date_fields y (month b) (day b)) eqn:E.
  - exact E.
  - apply check_march_1, Hy.
Qed.

Lemma occurrence_same_day (b today : date) :
  valid_date today = true ->
  month b = month today -> day b = day today ->
  occurrence b (year today) = today.
Proof.
  intros Hv Hm Hd. unfold occurrence. rewrite Hm, Hd.
  unfold valid_date in Hv. rewrite Hv. destruct today; reflexivity.
Qed.

Lemma date_ltb_irrefl (a : date) : date_ltb a a = false.
Proof.
  unfold date_ltb. rewrite !Z.ltb_irrefl, !Z.eqb_refl. reflexivity.
Qed.

Lemma date_ltb_later_year (a b : date) : year b < year a -> date_ltb a b = false.
Proof.
  intros H. unfold date_ltb.
  replace (year a <? year b) with false by lia.
  replace (year a =? year b) with false by lia.
  reflexivity.
Qed.

(** ** The projection *)

Lemma replace_or_march_1_in_range (b : date) (y : Z) :
  1 <= y <= 9999 -> replace_or_march_1 b y = Returns (occurrence b y).
Proof.
  intros Hy. unfold replace_or_march_1, date_replace_year, date_new, occurrence.
  destruct (check_date_fields y (month b) (day b)); cbn.
  - reflexivity.
  - rewrite check_march_1 by assumption. reflexivity.
Qed.

Lemma replace_or_march_1_above (b : date) (y : Z) :
  MAXYEAR < y -> replace_or_march_1 b y = Raises ValueError.
Proof.
  intros Hy. unfold replace_or_march_1, date_replace_year, date_new.
  rewrite !check_above_MAXYEAR by assumption. reflexivity.
Qed.

(** The projection of a parsed birthday: this year's occurrence unless it
    is already past, then next year's, which the calendar of [date] ends
    at [MAXYEAR]. *)
Lemma next_birthday_eq (b today : date) :
  valid_date today = true ->
  next_birthday b today =
  if date_ltb (occurrence b (year today)) today
  then (if year today <? MAXYEAR
        then Returns (occurrence b (year today + 1))
        else Raises ValueError)
  else Returns (occurrence b (year today)).
Proof.
  intros Hv. apply check_year_range in Hv. unfold next_birthday.
  rewrite replace_or_march_1_in_range by assumption. cbn [bind].
  destruct (date_ltb (occurrence b (year today)) today); [ | reflexivity].
  unfold MAXYEAR in *. destruct (Z.ltb_spec (year today) 9999).
  - apply replace_or_march_1_in_range. lia.
  - apply replace_or_march_1_above. unfold MAXYEAR. lia.
Qed.

Lemma next_birthday_valid (b today n : date) :
  valid_date today = true ->
  next_birthday b today = Returns n ->
  valid_date n = true /\ date_le today n.
Proof.
  intros Hv. rewrite next_birthday_eq by assumption.
  apply check_year_range in Hv. unfold date_le, MAXYEAR.
  destruct (date_ltb (occurrence b (year today)) today) eqn:E.
  - destruct (Z.ltb_spec (year today) 9999); [ | discriminate].
    intros [= <-]. split.
    + apply valid_occurrence. lia.
    + apply date_ltb_later_year. rewrite year_occurrence. lia.
  - intros [= <-]. split; [apply valid_occurrence; lia | exact E].
Qed.

(** ** The Birthday Projector *)

Section Projector.

Import CardDavBirthdaySensor.

(** What [_get_next_birthday] answers once the text has parsed to [b]. *)
Lemma body_of_parsed (b today : date) (has_year : bool) :
  valid_date today = true ->
  (n <-- next_birthday b today ;;
   Returns (Some n, age_turning has_year n b))
  = if date_ltb (occurrence b (year today)) today
    then (if year today <? MAXYEAR
          then Returns (Some (occurrence b (year today + 1)),
                        age_turning has_year (occurrence b (year today + 1)) b)
          else Raises ValueError)
    else Returns (Some (occurrence b (year today)),
                  age_turning has_year (occurrence b (year today)) b).
Proof.
  intros Hv. rewrite next_birthday_eq by assumption.
  destruct (date_ltb _ today); [ | reflexivity].
  destruct (year today <? MAXYEAR); reflexivity.
Qed.

Lemma body_isoformat (b today : date) :
  valid_date b = true ->
  body (isoformat b) today =
  (n <-- next_birthday b today ;; Returns (Some n, age_turning true n b)).
Proof.
  intros Hb. unfold body. rewrite len_isoformat. cbn [Z.leb Z.compare Pos.compare Pos.compare_cont].
  rewrite split_T_head_isoformat, strptime_isoformat by assumption.
  reflexivity.
Qed.

(** The Projector returns, whatever it is given. *)
Lemma get_next_birthday_returns (bday_str : string) (today : date) :
  exists r, _get_next_birthday bday_str today = Returns r.
Proof. apply try_except_Exception_returns. Qed.

(** C6.  The Projector is total: whatever the text and the day, it
    returns.  It returns [(None, None)] whenever an exception leaves the
    body of its [try]; for a text that is neither ten characters long
    nor starts with two dashes; whenever [strptime] raises, in the
    full-date branch and in the year-less branch; and whenever the date
    construction raises after either parse.  Only a text that parses
    and a construction that returns give a date, with the age for a full
    date and without it for a year-less one.  The literal ["birthday"]
    gives [(None, None)]. *)
Theorem projector_total (bday_str : string) (today : date) :
  exists r : option date * option Z,
    _get_next_birthday bday_str today = Returns r
    /\ (forall e, body bday_str today = Raises e -> r = (None, None))
    /\ (len bday_str < 10 -> startswith_dashes bday_str = false ->
        r = (None, None))
    /\ (forall e, 10 <= len bday_str ->
        strptime_Ymd (split_T_head bday_str) = Raises e -> r = (None, None))
    /\ (forall e, len bday_str < 10 -> startswith_dashes bday_str = true ->
        strptime_Ymd ("2000" +:+ drop2 bday_str) = Raises e ->
        r = (None, None))
    /\ (forall b e, 10 <= len bday_str ->
        strptime_Ymd (split_T_head bday_str) = Returns b ->
        next_birthday b today = Raises e -> r = (None, None))
    /\ (forall b e, len bday_str < 10 -> startswith_dashes bday_str = true ->
        strptime_Ymd ("2000" +:+ drop2 bday_str) = Returns b ->
        next_birthday b today = Raises e -> r = (None, None))
    /\ (forall b n, 10 <= len bday_str ->
        strptime_Ymd (split_T_head bday_str) = Returns b ->
        next_birthday b today = Returns n ->
        r = (Some n, Some (year n - year b)))
    /\ (forall b n, len bday_str < 10 -> startswith_dashes bday_str = true ->
        strptime_Ymd ("2000" +:+ drop2 bday_str) = Returns b ->
        next_birthday b today = Returns n ->
        r = (Some n, None))
    /\ _get_next_birthday "birthday" today = Returns (None, None).
Proof.
  unfold _get_next_birthday, body.
  destruct (Z.leb_spec 10 (len bday_str)) as [Hlen | Hlen];
    [ | destruct (startswith_dashes bday_str) eqn:Hdash].
  - destruct (strptime_Ymd (split_T_head bday_str)) as [b | e] eqn:Hparse.
    + destruct (next_birthday b today) as [n | e] eqn:Hnext;
        cbn [bind try_except is_Exception age_turning];
        (eexists; split; [reflexivity | ]);
        repeat split; intros; try reflexivity; try congruence; lia.
    + destruct (is_ValueError e); cbn [try_except is_Exception];
        (eexists; split; [reflexivity | ]);
        repeat split; intros; try reflexivity; try congruence; lia.
  - destruct (strptime_Ymd ("2000" +:+ drop2 bday_str)) as [b | e] eqn:Hparse.
    + destruct (next_birthday b today) as [n | e] eqn:Hnext;
        cbn [bind try_except is_Exception age_turning];
        (eexists; split; [reflexivity | ]);
        repeat split; intros; try reflexivity; try congruence; lia.
    + destruct (is_ValueError e); cbn [try_except is_Exception];
        (eexists; split; [reflexivity | ]);
        repeat split; intros; try reflexivity; try congruence; lia.
  - cbn [try_except]. eexists. split; [reflexivity | ].
    repeat split; intros; try reflexivity; try congruence; lia.
Qed.

(** The outer [try] is not idle: the body does raise, when the calendar
    has no next year. *)
Example body_raises_at_MAXYEAR :
  body "2000-01-01" (mkDate 9999 12 31) = Raises ValueError.
Proof. reflexivity. Qed.

(** C1.  A year-less birthday never parses: [bday_str[2:]] drops both
    dashes, ["2000" + "MM-DD"] has no dash after the year, [strptime]
    refuses it and the Projector answers [(None, None)], for every
    month, day and reference date. *)
Theorem yearless_birthday_unparsed (m d : Z) (today : date) :
  1 <= m <= 12 -> 1 <= d <= _days_in_month 2000 m ->
  _get_next_birthday (yearless m d) today = Returns (None, None).
Proof.
  intros Hm Hd. month_cases m; reflexivity.
Qed.

Lemma yearless_birthday_unparsed_witness :
  yearless 2 29 = "--02-29"
  /\ _get_next_birthday "--02-29" (mkDate 2025 3 1) = Returns (None, None).
Proof.
  split; [reflexivity | ].
  apply (yearless_birthday_unparsed 2 29 (mkDate 2025 3 1)).
  - split; [discriminate | discriminate].
  - split; [discriminate | discriminate].
Defined.

(** C2, as the code has it.  For a valid full-date birthday and a valid
    reference date, when the calendar still has a next year or this
    year's occurrence is not yet past, the Projector returns a date not
    before [today], the occurrence in this year or the next (March 1 for
    a February 29 that the year lacks), and [today] itself on the
    birthday. *)
Theorem full_date_next_occurrence (b today : date) :
  valid_date b = true -> valid_date today = true ->
  year today < MAXYEAR \/ date_le today (occurrence b (year today)) ->
  projects_forward b today.
Proof.
  intros Hb Hv Hnext. unfold projects_forward, _get_next_birthday.
  rewrite body_isoformat, body_of_parsed by assumption.
  destruct (date_ltb (occurrence b (year today)) today) eqn:E.
  - destruct Hnext as [Hy | Hle]; [ | unfold date_le in Hle; congruence].
    replace (year today <? MAXYEAR) with true by lia.
    eexists _, _. split; [reflexivity | ].
    split; [ | split; [right; reflexivity | ]].
    + apply date_ltb_later_year. rewrite year_occurrence. lia.
    + intros Hm Hd.
      rewrite (occurrence_same_day b today Hv Hm Hd), date_ltb_irrefl in E.
      discriminate.
  - eexists _, _. split; [reflexivity | ].
    split; [exact E | split; [left; reflexivity | ]].
    intros Hm Hd. apply occurrence_same_day; assumption.
Qed.

Lemma full_date_next_occurrence_witness :
  projects_forward (mkDate 2000 2 29) (mkDate 2025 3 1).
Proof.
  apply (full_date_next_occurrence (mkDate 2000 2 29) (mkDate 2025 3 1)).
  - reflexivity.
  - reflexivity.
  - left. reflexivity.
Defined.

(** C2 as stated fails in the last year of the calendar: on 9999-12-31 a
    birthday of January 1 is past, [replace(year=10000)] and
    [date(10000, 3, 1)] both raise, and the Projector answers
    [(None, None)]. *)
Lemma full_date_last_year_counterexample :
  valid_date (mkDate 2000 1 1) = true
  /\ valid_date (mkDate 9999 12 31) = true
  /\ _get_next_birthday "2000-01-01" (mkDate 9999 12 31) = Returns (None, None)
  /\ ~ projects_forward (mkDate 2000 1 1) (mkDate 9999 12 31).
Proof.
  split; [reflexivity | ]. split; [reflexivity | ]. split; [reflexivity | ].
  intros (n & a & Hrun & _). vm_compute in Hrun. discriminate.
Qed.

End Projector.

(** ** Ordinals

    [toordinal] is strictly increasing along the order of valid dates, so
    two valid dates the same number of days away are the same date. *)

Lemma days_before_year_succ (y : Z) :
  1 <= y ->
  _days_before_year (y + 1) =
  _days_before_year y + (if _is_leap y then 366 else 365).
Proof.
  intros Hy. unfold _days_before_year, _is_leap. cbn zeta.
  replace (y + 1 - 1) with y by lia.
  destruct (Z.eqb_spec (y mod 4) 0) as [H4 | H4];
    destruct (Z.eqb_spec (y mod 100) 0) as [H100 | H100];
    destruct (Z.eqb_spec (y mod 400) 0) as [H400 | H400];
    cbn [andb orb negb]; div_lia.
Qed.

Lemma days_before_year_mono (y y' : Z) :
  1 <= y -> y <= y' -> _days_before_year y <= _days_before_year y'.
Proof. intros Hy Hle. unfold _days_before_year. cbn zeta. div_lia. Qed.

Lemma day_of_year_bounds (y m d : Z) :
  check_date_fields y m d = true ->
  1 <= _days_before_month y m + d <= (if _is_leap y then 366 else 365).
Proof.
  intros Hv. apply valid_date_bounds in Hv. destruct Hv as (_ & Hm & Hd).
  revert Hd. unfold _days_before_month, _days_in_month.
  month_cases m; cbn [Z.eqb Z.ltb Z.compare Pos.eqb Pos.compare Pos.compare_cont
                       andb _DAYS_IN_MONTH _DAYS_BEFORE_MONTH];
    destruct (_is_leap y); lia.
Qed.

Lemma day_of_year_mono (y m d m' d' : Z) :
  check_date_fields y m d = true -> check_date_fields y m' d' = true ->
  m < m' -> _days_before_month y m + d < _days_before_month y m' + d'.
Proof.
  intros Hv Hv' Hlt.
  apply valid_date_bounds in Hv. destruct Hv as (_ & Hm & Hd).
  apply valid_date_bounds in Hv'. destruct Hv' as (_ & Hm' & Hd').
  revert Hd Hd'. unfold _days_before_month, _days_in_month.
  month_cases m; month_cases m'; try lia;
    cbn [Z.eqb Z.ltb Z.compare Pos.eqb Pos.compare Pos.compare_cont
         andb _DAYS_IN_MONTH _DAYS_BEFORE_MONTH];
    destruct (_is_leap y); lia.
Qed.

Lemma toordinal_lt (a b : date) :
  valid_date a = true -> valid_date b = true ->
  date_ltb a b = true -> toordinal a < toordinal b.
Proof.
  destruct a as [y m d], b as [y' m' d'].
  unfold valid_date, date_ltb, toordinal, _ymd2ord. cbn [year month day].
  intros Hv Hv' Hlt.
  pose proof (valid_date_bounds _ _ _ Hv) as (Hy & _ & Hd).
  pose proof (valid_date_bounds _ _ _ Hv') as (Hy' & _ & Hd').
  pose proof (day_of_year_bounds _ _ _ Hv) as Hb.
  pose proof (day_of_year_bounds _ _ _ Hv') as Hb'.
  destruct (Z.ltb_spec y y') as [Hyy | Hyy].
  - pose proof (days_before_year_succ y ltac:(lia)) as Hs.
    pose proof (days_before_year_mono (y + 1) y' ltac:(lia) ltac:(lia)) as Hmono.
    destruct (_is_leap y); lia.
  - cbn [orb] in Hlt. apply andb_prop in Hlt. destruct Hlt as [Heq Hlt].
    apply Z.eqb_eq in Heq. subst y'.
    destruct (Z.ltb_spec m m') as [Hmm | Hmm].
    + pose proof (day_of_year_mono _ _ _ _ _ Hv Hv' Hmm). lia.
    + cbn [orb] in Hlt. apply andb_prop in Hlt. destruct Hlt as [Heq Hlt].
      apply Z.eqb_eq in Heq. subst m'. lia.
Qed.

Lemma date_ltb_iff (a b : date) :
  date_ltb a b = true <->
  year a < year b
  \/ (year a = year b
      /\ (month a < month b \/ (month a = month b /\ day a < day b))).
Proof.
  unfold date_ltb.
  repeat (rewrite orb_true_iff || rewrite andb_true_iff).
  rewrite !Z.ltb_lt, !Z.eqb_eq. reflexivity.
Qed.

Lemma date_trichotomy (a b : date) :
  date_ltb a b = true \/ a = b \/ date_ltb b a = true.
Proof.
  rewrite !date_ltb_iff. destruct a as [y m d], b as [y' m' d'].
  cbn [year month day].
  destruct (Z.lt_trichotomy y y') as [H | [H | H]]; [lia | | lia].
  destruct (Z.lt_trichotomy m m') as [H0 | [H0 | H0]]; [lia | | lia].
  destruct (Z.lt_trichotomy d d') as [H1 | [H1 | H1]]; [lia | | lia].
  subst. right. left. reflexivity.
Qed.

Lemma toordinal_inj (a b : date) :
  valid_date a = true -> valid_date b = true ->
  toordinal a = toordinal b -> a = b.
Proof.
  intros Ha Hb Heq.
  destruct (date_trichotomy a b) as [H | [H | H]]; [ | assumption | ].
  - pose proof (toordinal_lt a b Ha Hb H). lia.
  - pose proof (toordinal_lt b a Hb Ha H). lia.
Qed.

(** ** Sorting by [days_diff] *)

Section Sorting.

Import CardDavNextBirthdaySensor.

Lemma fold_min_swap (l : list Z) (a b : Z) :
  fold_right Z.min a (b :: l) = Z.min a (fold_right Z.min b l).
Proof.
  revert a b. induction l as [ | c l IH]; intros a b; cbn [fold_right].
  - lia.
  - specialize (IH a b). cbn [fold_right] in IH. lia.
Qed.

Lemma fold_min_lower_bound (l : list Z) (a : Z) :
  fold_right Z.min a l <= a /\ Forall (fun x => fold_right Z.min a l <= x) l.
Proof.
  induction l as [ | c l [IHa IHl]]; cbn [fold_right].
  - split; [lia | constructor].
  - split; [lia | ]. constructor; [lia | ].
    eapply List.Forall_impl; [ | exact IHl]. cbn beta. intros x Hx. lia.
Qed.

Lemma fold_min_attained (l : list Z) (a : Z) : In (fold_right Z.min a l) (a :: l).
Proof.
  induction l as [ | c l IH]; cbn [fold_right].
  - left. reflexivity.
  - destruct (Z.min_spec c (fold_right Z.min a l)) as [[_ ->] | [_ ->]].
    + right. left. reflexivity.
    + destruct IH as [IH | IH]; [left; exact IH | right; right; exact IH].
Qed.

(** [min_days_until] is the minimum: attained, and a lower bound. *)
Lemma min_days_until_spec (x : item) (l : list item) :
  (exists it, In it (x :: l) /\ days_diff it = Aggregate.min_days_until (x :: l))
  /\ (forall it, In it (x :: l) -> Aggregate.min_days_until (x :: l) <= days_diff it).
Proof.
  unfold Aggregate.min_days_until. split.
  - pose proof (fold_min_attained (List.map days_diff l) (days_diff x)) as Hin.
    change (days_diff x :: List.map days_diff l)
      with (List.map days_diff (x :: l)) in Hin.
    apply List.in_map_iff in Hin. destruct Hin as (it & Heq & Hin). eauto.
  - pose proof (fold_min_lower_bound (List.map days_diff l) (days_diff x))
      as [Ha Hl].
    intros it [<- | Hin]; [exact Ha | ].
    rewrite List.Forall_forall in Hl. apply Hl. apply List.in_map. exact Hin.
Qed.

(** The sort puts a record of minimum [days_diff] first. *)
Lemma sort_by_days_head (l : list item) :
  match sort_by_days l with
  | [] => l = []
  | h :: _ => l <> [] /\ days_diff h = Aggregate.min_days_until l
  end.
Proof.
  induction l as [ | x l IH]; [reflexivity | ].
  cbn [sort_by_days fold_right]. fold (sort_by_days l).
  destruct (sort_by_days l) as [ | h t].
  - subst l. cbn. split; [discriminate | reflexivity].
  - destruct IH as [Hne Hmin]. destruct l as [ | y l]; [congruence | ].
    unfold Aggregate.min_days_until in *. cbn [List.map].
    rewrite fold_min_swap, <- Hmin. cbn [insert_by_days].
    destruct (Z.leb_spec (days_diff x) (days_diff h));
      (split; [discriminate | lia]).
Qed.

Lemma filter_insert_by_days (k : Z) (x : item) (l : list item) :
  List.filter (fun y => days_diff y =? k) (insert_by_days x l)
  = List.filter (fun y => days_diff y =? k) (x :: l).
Proof.
  induction l as [ | y l IH]; [reflexivity | ].
  cbn [insert_by_days].
  destruct (Z.leb_spec (days_diff x) (days_diff y)) as [Hle | Hlt];
    [reflexivity | ].
  cbn [List.filter] in *. rewrite IH.
  destruct (Z.eqb_spec (days_diff x) k), (Z.eqb_spec (days_diff y) k);
    try reflexivity.
  lia.
Qed.

(** Stability, in the form the Aggregator uses: the records of one key
    come out of the sort in the order they went in. *)
Lemma filter_sort_by_days (k : Z) (l : list item) :
  List.filter (fun y => days_diff y =? k) (sort_by_days l)
  = List.filter (fun y => days_diff y =? k) l.
Proof.
  induction l as [ | x l IH]; [reflexivity | ].
  cbn [sort_by_days fold_right]. fold (sort_by_days l).
  rewrite filter_insert_by_days. cbn [List.filter]. rewrite IH. reflexivity.
Qed.

End Sorting.

(** ** The Aggregator *)

Section Aggregator.

Import CardDavBirthdaySensor CardDavNextBirthdaySensor Aggregate.

(** One turn of the loop keeps a contact exactly when the Projector gives
    it a date, and records what the Projector computes. *)
Lemma loop_body_project (today : date) (upcoming : list item) (c : Contact) :
  loop_body today upcoming c =
  Returns (upcoming ++ match project today c with
                       | Some it => [it]
                       | None => []
                       end).
Proof.
  unfold loop_body, try_contact, project, _get_next_birthday, body.
  destruct (10 <=? len (birthday c)); [ | destruct (startswith_dashes (birthday c))].
  - destruct (strptime_Ymd (split_T_head (birthday c))) as [b | e];
      cbn [bind try_except is_Exception].
    + destruct (next_birthday b today) as [n | e];
        cbn [bind try_except is_Exception]; rewrite ?app_nil_r; reflexivity.
    + destruct (is_ValueError e); cbn [try_except is_Exception];
        rewrite app_nil_r; reflexivity.
  - destruct (strptime_Ymd ("2000" +:+ drop2 (birthday c))) as [b | e];
      cbn [bind try_except is_Exception].
    + destruct (next_birthday b today) as [n | e];
        cbn [bind try_except is_Exception]; rewrite ?app_nil_r; reflexivity.
    + destruct (is_ValueError e); cbn [try_except is_Exception];
        rewrite app_nil_r; reflexivity.
  - cbn [bind try_except is_Exception]. rewrite app_nil_r. reflexivity.
Qed.

Lemma survivors_cons (today : date) (c : Contact) (l : list Contact) :
  survivors today (c :: l) =
  match project today c with
  | Some it => it :: survivors today l
  | None => survivors today l
  end.
Proof. reflexivity. Qed.

Lemma for_each_loop_body (today : date) (contacts : list Contact)
    (acc : list item) :
  for_each contacts acc (loop_body today)
  = Returns (acc ++ survivors today contacts).
Proof.
  revert acc. induction contacts as [ | c l IH]; intros acc.
  - cbn. rewrite app_nil_r. reflexivity.
  - cbn [for_each]. rewrite loop_body_project. cbn [bind]. rewrite IH.
    rewrite survivors_cons. destruct (project today c).
    + rewrite <- app_assoc. reflexivity.
    + rewrite app_nil_r. reflexivity.
Qed.

Lemma tie_group_nil (today : date) (contacts : list Contact) :
  tie_group today contacts = [] -> survivors today contacts = [].
Proof.
  unfold tie_group. cbn zeta.
  destruct (survivors today contacts) as [ | x l]; [reflexivity | ].
  intros Hnil. exfalso.
  destruct (min_days_until_spec x l) as [(it & Hin & Heq) _].
  assert (Hf : In it (List.filter
                        (fun y => days_diff y =? min_days_until (x :: l))
                        (x :: l))).
  { apply List.filter_In. split; [exact Hin | lia]. }
  rewrite Hnil in Hf. destruct Hf.
Qed.

Lemma get_next_birthday_data_eq (contacts : list Contact) (today : date) :
  _get_next_birthday_data contacts today
  = Returns (answer_of (tie_group today contacts)).
Proof.
  unfold _get_next_birthday_data.
  destruct contacts as [ | c0 l0]; [reflexivity | ].
  rewrite for_each_loop_body. cbn [bind app].
  pose proof (tie_group_nil today (c0 :: l0)) as Hnil.
  unfold tie_group in *. cbn zeta in *.
  destruct (survivors today (c0 :: l0)) as [ | x l] eqn:Hs; [reflexivity | ].
  pose proof (sort_by_days_head (x :: l)) as Hhead.
  destruct (sort_by_days (x :: l)) as [ | h t] eqn:Hsort; [discriminate | ].
  destruct Hhead as [_ Hmin]. cbn [index0 bind]. rewrite Hmin, <- Hsort.
  rewrite filter_sort_by_days.
  destruct (List.filter (fun y => days_diff y =? min_days_until (x :: l))
              (x :: l)) as [ | m0 ms] eqn:Hties.
  - specialize (Hnil eq_refl). discriminate.
  - reflexivity.
Qed.

End Aggregator.

Section AggregateResult.

Import CardDavBirthdaySensor CardDavNextBirthdaySensor Aggregate.

Lemma age_eqb_eq (x y : option Z) : age_eqb x y = true <-> x = y.
Proof.
  destruct x as [a | ], y as [b | ]; cbn [age_eqb];
    try (split; [discriminate | congruence]); [ | tauto].
  rewrite Z.eqb_eq. split; congruence.
Qed.

(** The date the Projector returns is a date of the calendar. *)
Lemma projector_date_valid (bday_str : string) (today d : date) (a : option Z) :
  valid_date today = true ->
  _get_next_birthday bday_str today = Returns (Some d, a) ->
  valid_date d = true.
Proof.
  intros Hv. unfold _get_next_birthday, body.
  assert (Hcalc : forall b h r,
    try_except (n <-- next_birthday b today ;;
                Returns (Some n, age_turning h n b)) is_Exception
      (fun _ => Returns (None, None)) = Returns (Some d, r) ->
    valid_date d = true).
  { intros b h r. destruct (next_birthday b today) as [n | e] eqn:Hn;
      cbn [bind try_except is_Exception]; [ | discriminate].
    intros [= <- _]. eapply next_birthday_valid; eassumption. }
  destruct (10 <=? len bday_str); [ | destruct (startswith_dashes bday_str)].
  - destruct (strptime_Ymd (split_T_head bday_str)) as [b | e].
    + apply Hcalc.
    + destruct (is_ValueError e); discriminate.
  - destruct (strptime_Ymd ("2000" +:+ drop2 bday_str)) as [b | e].
    + apply Hcalc.
    + destruct (is_ValueError e); discriminate.
  - discriminate.
Qed.

Lemma project_Some (today : date) (c : Contact) (it : item) :
  project today c = Some it ->
  _get_next_birthday (birthday c) today = Returns (Some (next_bday it), age it)
  /\ item_name it = name c
  /\ days_diff it = days_between (next_bday it) today.
Proof.
  unfold project.
  destruct (_get_next_birthday (birthday c) today) as [[[d | ] a] | e];
    try discriminate.
  intros [= <-]. repeat split.
Qed.

Lemma project_None (today : date) (c : Contact) :
  _get_next_birthday (birthday c) today = Returns (None, None) ->
  project today c = None.
Proof. unfold project. intros ->. reflexivity. Qed.

Lemma In_survivors (today : date) (contacts : list Contact) (it : item) :
  In it (survivors today contacts) <->
  exists c, In c contacts /\ project today c = Some it.
Proof.
  induction contacts as [ | c l IH].
  - cbn. split; [tauto | intros (c & [] & _)].
  - rewrite survivors_cons. split.
    + destruct (project today c) as [it' | ] eqn:Hp.
      * intros [<- | Hin]; [exists c; split; [left; reflexivity | exact Hp] | ].
        apply IH in Hin. destruct Hin as (c' & Hin & Hp').
        exists c'. split; [right; exact Hin | exact Hp'].
      * intros Hin. apply IH in Hin. destruct Hin as (c' & Hin & Hp').
        exists c'. split; [right; exact Hin | exact Hp'].
    + intros (c' & [<- | Hin] & Hp).
      * rewrite Hp. left. reflexivity.
      * assert (Hs : In it (survivors today l)) by (apply IH; eauto).
        destruct (project today c); [right | ]; exact Hs.
Qed.

Lemma In_tie_group (today : date) (contacts : list Contact) (it : item) :
  In it (tie_group today contacts) <->
  In it (survivors today contacts)
  /\ forall other, In other (survivors today contacts) ->
                   days_diff it <= days_diff other.
Proof.
  unfold tie_group. cbn zeta. rewrite List.filter_In.
  destruct (survivors today contacts) as [ | x l]; [cbn; tauto | ].
  destruct (min_days_until_spec x l) as [(m & Hm & Hmeq) Hlow].
  split.
  - intros [Hin Heq]. split; [exact Hin | ].
    intros other Ho. specialize (Hlow other Ho). lia.
  - intros [Hin Hmin]. split; [exact Hin | ].
    specialize (Hlow it Hin). specialize (Hmin m Hm). lia.
Qed.

End AggregateResult.

Section AggregateClaims.

Import CardDavBirthdaySensor CardDavNextBirthdaySensor Aggregate.

(** C3.  When some record has a projection with a date, the Aggregator
    returns as [tied_names] the display names of the tie group, in the
    order of the collection; the tie group is made of the surviving
    records whose [days_until] is the least among all survivors. *)
Theorem tied_names_nearest (contacts : list Contact) (today : date) :
  (exists c d a, In c contacts
     /\ _get_next_birthday (birthday c) today = Returns (Some d, a)) ->
  (exists d a,
     _get_next_birthday_data contacts today
     = Returns (Some d, List.map item_name (tie_group today contacts), a))
  /\ (forall it,
        In it (tie_group today contacts) <->
        In it (survivors today contacts)
        /\ forall other, In other (survivors today contacts) ->
                         days_diff it <= days_diff other).
Proof.
  intros (c & d & a & Hin & Hrun). split; [ | apply In_tie_group].
  rewrite get_next_birthday_data_eq.
  assert (Hs : In (mkItem (days_between d today) d (name c) a)
                 (survivors today contacts)).
  { apply In_survivors. exists c. split; [exact Hin | ].
    unfold project. rewrite Hrun. reflexivity. }
  destruct (tie_group today contacts) as [ | m0 ms] eqn:Hties.
  - apply tie_group_nil in Hties. rewrite Hties in Hs. destruct Hs.
  - cbn [answer_of]. eauto.
Qed.

Lemma tied_names_nearest_witness :
  exists d a,
    _get_next_birthday_data contacts_ABC new_year_2025
    = Returns (Some d, ["A"], a).
Proof.
  refine (proj1 (tied_names_nearest contacts_ABC new_year_2025 _)).
  exists (mkContact "uid-a" "A" "1990-01-04"), (mkDate 2025 1 4), (Some 35).
  split; [left; reflexivity | reflexivity].
Defined.

(** C4.  When the Aggregator returns a date, its third component is the
    one age that all tied records share (which may be [None]) if they
    all have the same [age_turning], and otherwise the list of their
    ages, in the order of [tied_names]: both are read off the same tie
    group. *)
Theorem age_or_ages_of_tie_group (contacts : list Contact) (today d : date)
    (names : list string) (a : ages) :
  _get_next_birthday_data contacts today = Returns (Some d, names, a) ->
  names = List.map item_name (tie_group today contacts)
  /\ (forall v, (forall x, In x (tie_group today contacts) -> age x = v) ->
                a = OneAge v)
  /\ ((exists x y, In x (tie_group today contacts)
                   /\ In y (tie_group today contacts) /\ age x <> age y) ->
      a = AgeList (List.map age (tie_group today contacts))).
Proof.
  rewrite get_next_birthday_data_eq.
  destruct (tie_group today contacts) as [ | m0 ms]; [discriminate | ].
  cbn [answer_of]. intros [= _ <- <-]. split; [reflexivity | ]. split.
  - intros v Hall.
    assert (Hb : forallb (fun x => age_eqb x (age m0))
                   (List.map age (m0 :: ms)) = true).
    { apply List.forallb_forall. intros x Hx. apply List.in_map_iff in Hx.
      destruct Hx as (it & <- & Hit). apply age_eqb_eq.
      rewrite (Hall it Hit), (Hall m0 (or_introl eq_refl)). reflexivity. }
    cbn [forallb List.map] in Hb. rewrite Hb, (Hall m0 (or_introl eq_refl)).
    reflexivity.
  - intros (x & y & Hx & Hy & Hne).
    change (age m0 :: List.map age ms) with (List.map age (m0 :: ms)).
    match goal with
    | |- (if ?b then _ else _) = _ => destruct b eqn:Hb; [ | reflexivity]
    end.
    change (forallb (fun x => age_eqb x (age m0)) (List.map age (m0 :: ms))
            = true) in Hb.
    exfalso. apply Hne. rewrite List.forallb_forall in Hb.
    transitivity (age m0); [ | symmetry]; apply age_eqb_eq, Hb, List.in_map;
      assumption.
Qed.

Lemma age_or_ages_of_tie_group_witness :
  _get_next_birthday_data contacts_BD new_year_2025
  = Returns (Some (mkDate 2025 1 6), ["B"; "D"], AgeList [Some 40; Some 35])
  /\ ["B"; "D"] = List.map item_name (tie_group new_year_2025 contacts_BD)
  /\ AgeList [Some 40; Some 35]
     = AgeList (List.map age (tie_group new_year_2025 contacts_BD)).
Proof.
  assert (Hrun : _get_next_birthday_data contacts_BD new_year_2025
                 = Returns (Some (mkDate 2025 1 6), ["B"; "D"],
                            AgeList [Some 40; Some 35])) by reflexivity.
  split; [exact Hrun | ].
  destruct (age_or_ages_of_tie_group _ _ _ _ _ Hrun) as (Hnames & _ & Hlist).
  split; [exact Hnames | ]. apply Hlist.
  exists (mkItem 5 (mkDate 2025 1 6) "B" (Some 40)),
         (mkItem 5 (mkDate 2025 1 6) "D" (Some 35)).
  split; [left; reflexivity | ].
  split; [right; left; reflexivity | discriminate].
Defined.

(** C8.  When the Projector gives [(None, None)] for every record, and
    so also for the empty collection, the Aggregator returns the empty
    aggregate. *)
Theorem no_projection_empty_aggregate (contacts : list Contact) (today : date) :
  (forall c, In c contacts ->
     _get_next_birthday (birthday c) today = Returns (None, None)) ->
  _get_next_birthday_data contacts today = Returns (None, [], OneAge None).
Proof.
  intros Hall. rewrite get_next_birthday_data_eq.
  assert (Hs : survivors today contacts = []).
  { destruct (survivors today contacts) as [ | x l] eqn:Hs; [reflexivity | ].
    assert (Hin : In x (survivors today contacts)) by (rewrite Hs; left; reflexivity).
    apply In_survivors in Hin. destruct Hin as (c & Hc & Hp).
    rewrite (project_None today c (Hall c Hc)) in Hp. discriminate. }
  unfold tie_group. rewrite Hs. reflexivity.
Qed.

Lemma no_projection_empty_aggregate_witness :
  _get_next_birthday_data
    [mkContact "uid-x" "X" "birthday"; mkContact "uid-y" "Y" "2001-02-29"]
    new_year_2025
  = Returns (None, [], OneAge None)
  /\ _get_next_birthday_data [] new_year_2025 = Returns (None, [], OneAge None).
Proof.
  split.
  - apply no_projection_empty_aggregate.
    intros c [<- | [<- | []]]; reflexivity.
  - apply no_projection_empty_aggregate. intros c [].
Defined.

(** C9.  When the Aggregator returns a date on a valid day, every record
    of the tie group has that date as its [next_occurrence]: equal
    [days_until] from the same [today] are equal ordinals, and ordinals
    determine dates. *)
Theorem tie_group_shares_date (contacts : list Contact) (today d : date)
    (names : list string) (a : ages) :
  valid_date today = true ->
  _get_next_birthday_data contacts today = Returns (Some d, names, a) ->
  forall it, In it (tie_group today contacts) -> next_bday it = d.
Proof.
  intros Hv. rewrite get_next_birthday_data_eq.
  destruct (tie_group today contacts) as [ | m0 ms] eqn:Hties; [discriminate | ].
  cbn [answer_of]. intros [= <- _ _] it Hit.
  assert (Hm0 : In m0 (tie_group today contacts)) by (rewrite Hties; left; reflexivity).
  rewrite <- Hties in Hit.
  apply In_tie_group in Hit. destruct Hit as [Hit Hmin].
  apply In_tie_group in Hm0. destruct Hm0 as [Hm0 Hmin0].
  pose proof (Hmin m0 Hm0) as Hle. pose proof (Hmin0 it Hit) as Hge.
  apply In_survivors in Hit. destruct Hit as (c & _ & Hp).
  apply In_survivors in Hm0. destruct Hm0 as (c0 & _ & Hp0).
  apply project_Some in Hp. destruct Hp as (Hrun & _ & Hdays).
  apply project_Some in Hp0. destruct Hp0 as (Hrun0 & _ & Hdays0).
  apply toordinal_inj.
  - eapply projector_date_valid; eassumption.
  - eapply projector_date_valid; eassumption.
  - unfold days_between in *. lia.
Qed.

Lemma tie_group_shares_date_witness :
  valid_date new_year_2025 = true
  /\ next_bday (mkItem 5 (mkDate 2025 1 6) "D" (Some 35)) = mkDate 2025 1 6.
Proof.
  split; [reflexivity | ].
  apply (tie_group_shares_date contacts_BD new_year_2025 (mkDate 2025 1 6)
           ["B"; "D"] (AgeList [Some 40; Some 35])).
  - reflexivity.
  - reflexivity.
  - right. left. reflexivity.
Defined.

End AggregateClaims.

(** ** The Response Parser *)

Section ResponseParser.

Import vobject CardDavCoordinator Cards.

Variable fromstring : string -> result ET.Element.
Variable readOne : string -> result Component.

(** One turn of the loop appends the record of the card, if it has one,
    and never raises. *)
Lemma loop_body_card_record (contacts : list Contact) (elem : ET.Element) :
  loop_body readOne contacts elem =
  Returns (contacts ++ match card_record readOne elem with
                       | Some c => [c]
                       | None => []
                       end).
Proof.
  unfold loop_body, card_record, try_card.
  destruct (ET.text elem) as [[ | ch s] | ]; cbn [truthy];
    rewrite ?app_nil_r; try reflexivity.
  destruct (readOne (String ch s)) as [vcard | e];
    cbn [bind try_except is_Exception]; rewrite ?app_nil_r; try reflexivity.
  destruct (contents vcard !! "uid") as [[ | u us] | ];
    cbn [bind try_except is_Exception index0];
    rewrite ?app_nil_r; try reflexivity;
    try (destruct (contents vcard !! "bday") as [[ | b bs] | ];
         rewrite ?app_nil_r; reflexivity).
  destruct (value u) as [ | ch' s'] eqn:Hu; cbn [truthy bind try_except];
    [destruct (contents vcard !! "bday") as [[ | b bs] | ];
     rewrite ?app_nil_r; reflexivity | ].
  destruct (contents vcard !! "bday") as [[ | b bs] | ];
    destruct (contents vcard !! "fn") as [[ | f fs] | ];
    cbn [bind try_except is_Exception index0];
    rewrite ?app_nil_r; reflexivity.
Qed.

Lemma for_each_card_record (elems : list ET.Element) (acc : list Contact) :
  for_each elems acc (loop_body readOne)
  = Returns (acc ++ omap (card_record readOne) elems).
Proof.
  revert acc. induction elems as [ | e l IH]; intros acc.
  - cbn. rewrite app_nil_r. reflexivity.
  - cbn [for_each]. rewrite loop_body_card_record. cbn [bind]. rewrite IH.
    change (omap (card_record readOne) (e :: l))
      with (match card_record readOne e with
            | Some c => c :: omap (card_record readOne) l
            | None => omap (card_record readOne) l
            end).
    destruct (card_record readOne e).
    + rewrite <- app_assoc. reflexivity.
    + rewrite app_nil_r. reflexivity.
Qed.

Lemma parse_contacts_of_root (xml_text : string) (root : ET.Element) :
  fromstring xml_text = Returns root ->
  _parse_contacts fromstring readOne xml_text
  = Returns (omap (card_record readOne)
               (ET.findall_descendants address_data root)).
Proof.
  intros Hroot. unfold _parse_contacts. rewrite Hroot. cbn [bind].
  rewrite for_each_card_record. reflexivity.
Qed.

Lemma parse_contacts_returns (xml_text : string) (cs : list Contact) :
  _parse_contacts fromstring readOne xml_text = Returns cs ->
  exists root, fromstring xml_text = Returns root
    /\ cs = omap (card_record readOne)
              (ET.findall_descendants address_data root).
Proof.
  destruct (fromstring xml_text) as [root | e] eqn:Hroot.
  - rewrite (parse_contacts_of_root xml_text root Hroot).
    intros [= <-]. eauto.
  - unfold _parse_contacts. rewrite Hroot. cbn [bind try_except].
    destruct (is_ParseError e); discriminate.
Qed.

Lemma card_record_unparsable (elem : ET.Element) :
  card_unparsable readOne elem -> card_record readOne elem = None.
Proof.
  intros (s & e & Htext & Hread). unfold card_record. rewrite Htext.
  destruct s; [reflexivity | ]. rewrite Hread. reflexivity.
Qed.

Lemma card_record_lacks_uid (elem : ET.Element) :
  card_lacks readOne "uid" elem -> card_record readOne elem = None.
Proof.
  intros (s & v & Htext & Hread & Hlacks). unfold card_record, lacks in *.
  rewrite Htext. destruct s; [reflexivity | ]. rewrite Hread, Hlacks.
  reflexivity.
Qed.

Lemma card_record_lacks_bday (elem : ET.Element) :
  card_lacks readOne "bday" elem -> card_record readOne elem = None.
Proof.
  intros (s & v & Htext & Hread & Hlacks). unfold card_record, lacks in *.
  rewrite Htext. destruct s; [reflexivity | ]. rewrite Hread, Hlacks.
  destruct (contents v !! "uid") as [[ | u us] | ]; reflexivity.
Qed.

Lemma card_record_empty_uid (elem : ET.Element) :
  card_empty_uid readOne elem -> card_record readOne elem = None.
Proof.
  intros (s & v & u & us & Htext & Hread & Huid & Hvalue).
  unfold card_record. rewrite Htext. destruct s; [reflexivity | ].
  rewrite Hread, Huid.
  destruct (contents v !! "bday") as [[ | b bs] | ]; rewrite ?Hvalue;
    reflexivity.
Qed.

Lemma card_record_well_formed (elem : ET.Element) (c : Contact) :
  well_formed readOne elem c -> card_record readOne elem = Some c.
Proof.
  intros (s & v & u & us & b & bs & Htext & Hs & Hread & Huid & Hu & Hbday
          & Hcu & Hcb & Hfn).
  unfold card_record. rewrite Htext. destruct s; [congruence | ].
  rewrite Hread, Huid, Hbday. destruct (value u) eqn:Hvu; [congruence | ].
  destruct c as [cu cn cb]. cbn [uid name birthday] in *. subst cu cb.
  destruct Hfn as [[-> ->] | (f & fs & -> & ->)]; reflexivity.
Qed.

Lemma card_record_uid (elem : ET.Element) (c : Contact) :
  card_record readOne elem = Some c -> uid c <> EmptyString.
Proof.
  unfold card_record.
  destruct (ET.text elem) as [[ | ch s] | ]; try discriminate.
  destruct (readOne (String ch s)) as [v | e]; try discriminate.
  destruct (contents v !! "uid") as [[ | u us] | ]; try discriminate.
  destruct (contents v !! "bday") as [[ | b bs] | ]; try discriminate.
  destruct (value u) as [ | ch' s'] eqn:Hu; try discriminate.
  destruct (contents v !! "fn") as [[ | f fs] | ]; try discriminate;
    intros [= <-]; cbn [uid]; discriminate.
Qed.

End ResponseParser.

Section ParserClaims.

Import vobject CardDavCoordinator Cards.

(** C5.  When the envelope parses, the Response Parser returns, in the
    order of the envelope, the records of its [address-data] elements:
    none for a card without [UID], a card that does not parse or a card
    without [BDAY], and the Contact Record of every well-formed card.
    Two entries of which one lacks [UID] and the other is well-formed
    give exactly one record. *)
Theorem parse_contacts_skips_malformed_cards
    (fromstring : string -> result ET.Element)
    (readOne : string -> result Component)
    (xml_text : string) (root : ET.Element) :
  fromstring xml_text = Returns root ->
  _parse_contacts fromstring readOne xml_text
  = Returns (omap (card_record readOne)
               (ET.findall_descendants address_data root))
  /\ (forall elem,
        card_lacks readOne "uid" elem \/ card_unparsable readOne elem
        \/ card_lacks readOne "bday" elem ->
        card_record readOne elem = None)
  /\ (forall elem c, well_formed readOne elem c ->
                     card_record readOne elem = Some c)
  /\ (forall e1 e2 c,
        ET.findall_descendants address_data root = [e1; e2] ->
        card_lacks readOne "uid" e1 /\ well_formed readOne e2 c
        \/ well_formed readOne e1 c /\ card_lacks readOne "uid" e2 ->
        _parse_contacts fromstring readOne xml_text = Returns [c]).
Proof.
  intros Hroot. split; [apply parse_contacts_of_root, Hroot | ].
  split; [ | split].
  - intros elem [H | [H | H]].
    + apply card_record_lacks_uid, H.
    + apply card_record_unparsable, H.
    + apply card_record_lacks_bday, H.
  - intros elem c. apply card_record_well_formed.
  - intros e1 e2 c Helems Hcards.
    rewrite (parse_contacts_of_root fromstring readOne xml_text root Hroot).
    rewrite Helems.
    change (omap (card_record readOne) [e1; e2])
      with (match card_record readOne e1 with
            | Some c1 =>
                c1 :: match card_record readOne e2 with
                      | Some c2 => [c2]
                      | None => []
                      end
            | None =>
                match card_record readOne e2 with
                | Some c2 => [c2]
                | None => []
                end
            end).
    destruct Hcards as [[Hbad Hgood] | [Hgood Hbad]];
      rewrite (card_record_lacks_uid readOne _ Hbad),
              (card_record_well_formed readOne _ c Hgood); reflexivity.
Qed.

Lemma parse_contacts_skips_malformed_cards_witness :
  Example.fromstring "<multistatus/>" = Returns Example.multistatus
  /\ _parse_contacts Example.fromstring Example.readOne "<multistatus/>"
     = Returns [mkContact "uid-bob" "Bob" "1985-01-06"].
Proof.
  assert (Hroot : Example.fromstring "<multistatus/>"
                  = Returns Example.multistatus) by reflexivity.
  split; [exact Hroot | ].
  destruct (parse_contacts_skips_malformed_cards
              Example.fromstring Example.readOne "<multistatus/>"
              Example.multistatus Hroot) as (_ & _ & _ & Htwo).
  apply (Htwo (ET.mkElement address_data (Some "card ann") [])
              (ET.mkElement address_data (Some "card bob") [])).
  - reflexivity.
  - left. split.
    + exists "card ann", Example.card_without_uid.
      split; [reflexivity | split; reflexivity].
    + exists "card bob", Example.card_of_bob,
             (mkContentLine "uid-bob"), [], (mkContentLine "1985-01-06"), [].
      repeat (split; [first [reflexivity | discriminate] | ]).
      right. exists (mkContentLine "Bob"), []. split; reflexivity.
Defined.

(** C7.  When the payload is not well-formed XML, that is [ET.fromstring]
    raises [ParseError], [_parse_contacts] raises [UpdateFailed] and
    returns no list, and so does the refresh cycle, whatever the
    status. *)
Theorem malformed_envelope_fails_cycle
    (fromstring : string -> result ET.Element)
    (readOne : string -> result Component)
    (xml_text : string) :
  fromstring xml_text = Raises ParseError ->
  _parse_contacts fromstring readOne xml_text = Raises UpdateFailed
  /\ forall status : Z,
       _async_update_data fromstring readOne (Returns (status, xml_text))
       = Raises UpdateFailed.
Proof.
  intros Hparse.
  assert (H : _parse_contacts fromstring readOne xml_text = Raises UpdateFailed).
  { unfold _parse_contacts. rewrite Hparse. reflexivity. }
  split; [exact H | ].
  intros status. unfold _async_update_data, _fetch_contacts. cbn [bind].
  destruct (negb (status =? 207) && negb (status =? 200)).
  - reflexivity.
  - rewrite H. reflexivity.
Qed.

Lemma malformed_envelope_fails_cycle_witness :
  Example.fromstring "<multistatus>" = Raises ParseError
  /\ _parse_contacts Example.fromstring Example.readOne "<multistatus>"
     = Raises UpdateFailed
  /\ _async_update_data Example.fromstring Example.readOne
       (Returns (207, "<multistatus>"))
     = Raises UpdateFailed.
Proof.
  assert (Hparse : Example.fromstring "<multistatus>" = Raises ParseError)
    by reflexivity.
  split; [exact Hparse | ].
  destruct (malformed_envelope_fails_cycle Example.fromstring Example.readOne
              "<multistatus>" Hparse) as [Hp Hcycle].
  split; [exact Hp | exact (Hcycle 207)].
Defined.

(** C10.  Every Contact Record the Response Parser returns has a
    non-empty [uid]; a card whose [UID] is the empty string goes the way
    of a card without [UID]: the loop leaves the list as it was. *)
Theorem parsed_contacts_have_uid
    (fromstring : string -> result ET.Element)
    (readOne : string -> result Component)
    (xml_text : string) (cs : list Contact) :
  _parse_contacts fromstring readOne xml_text = Returns cs ->
  (forall c, In c cs -> uid c <> EmptyString)
  /\ (forall acc elem,
        card_empty_uid readOne elem \/ card_lacks readOne "uid" elem ->
        loop_body readOne acc elem = Returns acc).
Proof.
  intros Hrun. split.
  - apply parse_contacts_returns in Hrun. destruct Hrun as (root & _ & ->).
    intros c Hin. apply list_elem_of_In, list_elem_of_omap in Hin.
    destruct Hin as (elem & _ & Hrec).
    eapply card_record_uid. exact Hrec.
  - intros acc elem Hcard. rewrite loop_body_card_record.
    destruct Hcard as [H | H].
    + rewrite (card_record_empty_uid readOne elem H), app_nil_r. reflexivity.
    + rewrite (card_record_lacks_uid readOne elem H), app_nil_r. reflexivity.
Qed.

Lemma parsed_contacts_have_uid_witness :
  _parse_contacts Example.fromstring Example.readOne "<multistatus/>"
  = Returns [mkContact "uid-bob" "Bob" "1985-01-06"]
  /\ uid (mkContact "uid-bob" "Bob" "1985-01-06") <> EmptyString.
Proof.
  assert (Hrun : _parse_contacts Example.fromstring Example.readOne
                   "<multistatus/>"
                 = Returns [mkContact "uid-bob" "Bob" "1985-01-06"])
    by reflexivity.
  split; [exact Hrun | ].
  apply (proj1 (parsed_contacts_have_uid Example.fromstring Example.readOne
                  "<multistatus/>" _ Hrun)).
  left. reflexivity.
Defined.

End ParserClaims.

(** * Further properties *)

(** ** Days until the next birthday *)

Lemma check_date_fields_iff (y m d : Z) :
  check_date_fields y m d = true <->
  1 <= y <= 9999 /\ 1 <= m <= 12 /\ 1 <= d <= _days_in_month y m.
Proof.
  split; [apply valid_date_bounds | ].
  intros (Hy & Hm & Hd). unfold check_date_fields, MINYEAR, MAXYEAR.
  repeat (apply andb_true_intro; split); lia.
Qed.

Lemma is_leap_not_consecutive (y : Z) :
  _is_leap y = true -> _is_leap (y + 1) = false.
Proof.
  unfold _is_leap. intros H. apply andb_prop in H. destruct H as [H4 _].
  apply Z.eqb_eq in H4.
  replace ((y + 1) mod 4 =? 0) with false; [reflexivity | ].
  symmetry. apply Z.eqb_neq. div_lia.
Qed.

Lemma toordinal_le (a b : date) :
  valid_date a = true -> valid_date b = true ->
  date_le a b -> toordinal a <= toordinal b.
Proof.
  intros Ha Hb Hle. unfold date_le in Hle.
  destruct (date_trichotomy a b) as [H | [H | H]].
  - pose proof (toordinal_lt a b Ha Hb H). lia.
  - subst. lia.
  - congruence.
Qed.

Lemma toordinal_le_inv (a b : date) :
  valid_date a = true -> valid_date b = true ->
  toordinal a <= toordinal b -> date_le a b.
Proof.
  intros Ha Hb Hle. unfold date_le.
  destruct (date_ltb b a) eqn:E; [ | reflexivity].
  pose proof (toordinal_lt b a Hb Ha E). lia.
Qed.

(** From one year's occurrence to the next there are at most 366 days. *)
Lemma occurrence_gap (b : date) (y : Z) :
  1 <= y < 9999 ->
  toordinal (occurrence b (y + 1)) - toordinal (occurrence b y) <= 366.
Proof.
  intros Hy. unfold occurrence, toordinal, _ymd2ord.
  pose proof (days_before_year_succ y ltac:(lia)) as Hsucc.
  pose proof (is_leap_not_consecutive y) as Hcons.
  destruct (check_date_fields y (month b) (day b)) eqn:E1;
    destruct (check_date_fields (y + 1) (month b) (day b)) eqn:E2;
    cbn [year month day]; rewrite Hsucc.
  - apply check_date_fields_iff in E1, E2.
    destruct E1 as (_ & Hm & Hd1), E2 as (_ & _ & Hd2).
    revert Hd1 Hd2. unfold _days_before_month, _days_in_month.
    generalize (day b) as d. generalize (month b) as m, Hm. clear.
    intros m Hm d. month_cases m;
      cbn [Z.eqb Z.ltb Z.compare Pos.eqb Pos.compare Pos.compare_cont andb
           _DAYS_IN_MONTH _DAYS_BEFORE_MONTH];
      destruct (_is_leap y), (_is_leap (y + 1)); lia.
  - apply check_date_fields_iff in E1. destruct E1 as (_ & Hm & Hd1).
    assert (Hd2 : ~ day b <= _days_in_month (y + 1) (month b)).
    { intros H. assert (Ht : check_date_fields (y + 1) (month b) (day b) = true)
        by (apply check_date_fields_iff; lia). congruence. }
    revert Hd1 Hd2 Hcons. unfold _days_before_month, _days_in_month.
    generalize (day b) as d. generalize (month b) as m, Hm. clear.
    intros m Hm d. month_cases m;
      cbn [Z.eqb Z.ltb Z.compare Pos.eqb Pos.compare Pos.compare_cont andb
           _DAYS_IN_MONTH _DAYS_BEFORE_MONTH];
      destruct (_is_leap y), (_is_leap (y + 1)); intros; try lia;
      try (specialize (Hcons eq_refl); discriminate).
  - apply check_date_fields_iff in E2. destruct E2 as (_ & Hm & Hd2).
    assert (Hd1 : ~ day b <= _days_in_month y (month b)).
    { intros H. assert (Ht : check_date_fields y (month b) (day b) = true)
        by (apply check_date_fields_iff; lia). congruence. }
    revert Hd1 Hd2 Hcons. unfold _days_before_month, _days_in_month.
    generalize (day b) as d. generalize (month b) as m, Hm. clear.
    intros m Hm d. month_cases m;
      cbn [Z.eqb Z.ltb Z.compare Pos.eqb Pos.compare Pos.compare_cont andb
           _DAYS_IN_MONTH _DAYS_BEFORE_MONTH];
      destruct (_is_leap y), (_is_leap (y + 1)); intros; try lia;
      try (specialize (Hcons eq_refl); discriminate).
  - unfold _days_before_month.
    cbn [Z.eqb Z.ltb Z.compare Pos.eqb Pos.compare Pos.compare_cont andb
         _DAYS_BEFORE_MONTH].
    destruct (_is_leap y), (_is_leap (y + 1)); lia.
Qed.

Lemma next_birthday_days (b today n : date) :
  valid_date today = true ->
  next_birthday b today = Returns n ->
  0 <= days_between n today <= 365.
Proof.
  intros Hv Hrun.
  destruct (next_birthday_valid b today n Hv Hrun) as [Hn Hle].
  pose proof (toordinal_le today n Hv Hn Hle) as Hlow.
  unfold days_between. split; [lia | ].
  rewrite next_birthday_eq in Hrun by assumption.
  pose proof (check_year_range _ _ _ Hv) as Hy.
  destruct (date_ltb (occurrence b (year today)) today) eqn:E.
  - unfold MAXYEAR in Hrun.
    destruct (Z.ltb_spec (year today) 9999); [ | discriminate].
    injection Hrun as <-.
    pose proof (occurrence_gap b (year today) ltac:(lia)) as Hgap.
    pose proof (toordinal_lt _ _ (valid_occurrence b (year today) Hy) Hv E).
    lia.
  - injection Hrun as <-.
    pose proof (valid_occurrence b (year today) Hy) as Hocc.
    unfold valid_date in Hocc, Hv.
    apply day_of_year_bounds in Hocc, Hv. revert Hocc Hv.
    unfold toordinal, _ymd2ord. rewrite year_occurrence.
    destruct (_is_leap (year today)); lia.
Qed.

(** ** More of the Projector *)

Section ProjectorMore.

Import CardDavBirthdaySensor.

(** What stands behind a date returned by the Projector. *)
Lemma projector_Some_inv (bday_str : string) (today d : date) (a : option Z) :
  _get_next_birthday bday_str today = Returns (Some d, a) ->
  exists b,
    next_birthday b today = Returns d
    /\ (10 <= len bday_str
        /\ strptime_Ymd (split_T_head bday_str) = Returns b
        /\ a = Some (year d - year b)
        \/ len bday_str < 10
           /\ strptime_Ymd ("2000" +:+ drop2 bday_str) = Returns b
           /\ a = None).
Proof.
  unfold _get_next_birthday, body.
  assert (Hcalc : forall b h,
    try_except (n <-- next_birthday b today ;;
                Returns (Some n, age_turning h n b)) is_Exception
      (fun _ => Returns (None, None)) = Returns (Some d, a) ->
    next_birthday b today = Returns d /\ a = age_turning h d b).
  { intros b h. destruct (next_birthday b today) as [n | e];
      cbn [bind try_except is_Exception]; [ | discriminate].
    intros [= <- <-]. split; reflexivity. }
  destruct (Z.leb_spec 10 (len bday_str)) as [Hlen | Hlen];
    [ | destruct (startswith_dashes bday_str)].
  - destruct (strptime_Ymd (split_T_head bday_str)) as [b | e].
    + intros H. apply Hcalc in H. destruct H as [Hn ->].
      exists b. split; [exact Hn | left]. repeat split. exact Hlen.
    + destruct (is_ValueError e); discriminate.
  - destruct (strptime_Ymd ("2000" +:+ drop2 bday_str)) as [b | e].
    + intros H. apply Hcalc in H. destruct H as [Hn ->].
      exists b. split; [exact Hn | right]. repeat split. exact Hlen.
    + destruct (is_ValueError e); discriminate.
  - discriminate.
Qed.

Lemma projector_days (bday_str : string) (today d : date) (a : option Z) :
  valid_date today = true ->
  _get_next_birthday bday_str today = Returns (Some d, a) ->
  0 <= days_between d today <= 365.
Proof.
  intros Hv Hrun. apply projector_Some_inv in Hrun.
  destruct Hrun as (b & Hn & _). eapply next_birthday_days; eassumption.
Qed.

(** X1.  On a valid day, with both readings of the clock on that day,
    the attributes of a contact's sensor are always produced, and
    [days_until], when present, lies between 0 and 365. *)
Theorem days_until_within_a_year (data : list Contact) (contact : Contact)
    (today : date) :
  valid_date today = true ->
  exists attrs,
    snd (BirthdayEntity.extra_state_attributes data contact today today)
    = Returns attrs
    /\ forall k, BirthdayEntity.days_until attrs = Some k -> 0 <= k <= 365.
Proof.
  intros Hv.
  unfold BirthdayEntity.extra_state_attributes, BirthdayEntity._get_next_birthday.
  destruct (get_next_birthday_returns
              (birthday (BirthdayEntity.current_contact data contact)) today)
    as ([[n | ] a] & Hrun); rewrite Hrun; cbn [snd bind];
    eexists; (split; [reflexivity | ]); cbn [BirthdayEntity.days_until].
  - intros k [= <-]. eapply projector_days; eassumption.
  - discriminate.
Qed.

Lemma days_until_within_a_year_witness :
  exists attrs,
    snd (BirthdayEntity.extra_state_attributes contacts_ABC
           (mkContact "uid-c" "Old name" "1999-12-31") new_year_2025
           new_year_2025)
    = Returns attrs
    /\ forall k, BirthdayEntity.days_until attrs = Some k -> 0 <= k <= 365.
Proof.
  apply (days_until_within_a_year contacts_ABC
           (mkContact "uid-c" "Old name" "1999-12-31") new_year_2025).
  reflexivity.
Defined.

(** X2.  A time component after [T] is ignored: a full date followed by
    [T] and anything projects as the full date alone. *)
Theorem time_component_ignored (b today : date) (rest : string) :
  valid_date b = true ->
  _get_next_birthday (isoformat b +:+ String "T" rest) today
  = _get_next_birthday (isoformat b) today.
Proof.
  intros Hb. unfold _get_next_birthday, body.
  rewrite split_T_head_isoformat, len_isoformat by assumption.
  assert (Hsplit : split_T_head (isoformat b +:+ String "T" rest)
                   = isoformat b).
  { destruct b as [y m d]. unfold valid_date in Hb. cbn [year month day] in Hb.
    apply valid_date_bounds in Hb. destruct Hb as (Hy & Hm & Hd).
    pose proof (days_in_month_le_31 y m) as H31.
    unfold isoformat, four_digits, month_day_text, two_digits.
    cbn [year month day]. rewrite !append_String, !append_EmptyString.
    rewrite !append_String, !append_EmptyString.
    cbn [split_T_head]. rewrite !digit_char_not_T by div_lia. reflexivity. }
  assert (Hlen : (10 <=? len (isoformat b +:+ String "T" rest)) = true).
  { apply Z.leb_le. unfold isoformat, four_digits, month_day_text, two_digits, len.
    rewrite !append_String, !append_EmptyString.
    rewrite !append_String, !append_EmptyString.
    cbn [String.length]. lia. }
  rewrite Hsplit, Hlen. reflexivity.
Qed.

Lemma time_component_ignored_witness :
  _get_next_birthday "1990-01-06T00:00:00" new_year_2025
  = _get_next_birthday "1990-01-06" new_year_2025.
Proof.
  apply (time_component_ignored (mkDate 1990 1 6) new_year_2025 "00:00:00").
  reflexivity.
Defined.

(** X3.  When the Projector returns a date, it returns an age exactly
    for the texts of ten characters or more, and that age is the year of
    the date minus the year parsed from the text. *)
Theorem age_known_for_full_dates_only (bday_str : string) (today d : date)
    (a : option Z) :
  _get_next_birthday bday_str today = Returns (Some d, a) ->
  (10 <= len bday_str ->
   exists b, strptime_Ymd (split_T_head bday_str) = Returns b
             /\ a = Some (year d - year b))
  /\ (len bday_str < 10 -> a = None).
Proof.
  intros Hrun. apply projector_Some_inv in Hrun.
  destruct Hrun as (b & _ & [(Hlen & Hparse & ->) | (Hlen & _ & ->)]).
  - split; [eauto | lia].
  - split; [lia | reflexivity].
Qed.

Lemma age_known_for_full_dates_only_witness :
  (10 <= len "1990-01-06T00:00:00" ->
   exists b, strptime_Ymd (split_T_head "1990-01-06T00:00:00") = Returns b
             /\ Some 35 = Some (year (mkDate 2025 1 6) - year b))
  /\ (len "1990-01-06T00:00:00" < 10 -> Some 35 = None).
Proof.
  apply (age_known_for_full_dates_only "1990-01-06T00:00:00" new_year_2025
           (mkDate 2025 1 6) (Some 35)).
  reflexivity.
Defined.



End ProjectorMore.

(** ** The sensor of one contact *)

Section BirthdayEntityProperties.

Import BirthdayEntity.

Lemma length_append (s t : string) :
  String.length (s +:+ t) = (String.length s + String.length t)%nat.
Proof.
  induction s as [ | c s IH]; [reflexivity | ].
  rewrite append_String. cbn [String.length]. rewrite IH. reflexivity.
Qed.

Lemma append_cancel_r (s1 s2 t : string) : s1 +:+ t = s2 +:+ t -> s1 = s2.
Proof.
  revert s2. induction s1 as [ | c s1 IH]; intros [ | c' s2] H.
  - reflexivity.
  - apply (f_equal String.length) in H.
    rewrite append_EmptyString, length_append in H.
    cbn [String.length] in H. lia.
  - apply (f_equal String.length) in H.
    rewrite append_EmptyString, length_append in H.
    cbn [String.length] in H. lia.
  - rewrite !append_String in H. injection H as -> H.
    f_equal. apply IH, H.
Qed.

Lemma current_contact_uid (data : list Contact) (contact : Contact) :
  uid (current_contact data contact) = uid contact.
Proof.
  unfold current_contact.
  destruct (List.find (fun c => String.eqb (uid c) (uid contact)) data)
    as [c | ] eqn:Hfind; [ | reflexivity].
  apply List.find_some in Hfind. destruct Hfind as [_ Heq].
  apply String.eqb_eq in Heq. exact Heq.
Qed.

(** X5.  The lookup that opens [_get_next_birthday] never changes the
    [uid] of the sensor's contact, through any sequence of refreshes; it
    takes the contact from the fetched data when one has this [uid] and
    keeps the old one otherwise. *)
Theorem sensor_contact_keeps_uid (data : list Contact) (contact : Contact)
    (refreshes : list (list Contact)) :
  uid (fold_left (fun c d => current_contact d c) refreshes contact)
  = uid contact
  /\ ((exists c, In c data /\ uid c = uid contact) ->
      In (current_contact data contact) data)
  /\ ((forall c, In c data -> uid c <> uid contact) ->
      current_contact data contact = contact).
Proof.
  split; [ | split].
  - revert contact. induction refreshes as [ | d l IH]; intros contact.
    + reflexivity.
    + cbn [fold_left]. rewrite IH. apply current_contact_uid.
  - intros (c & Hin & Huid). unfold current_contact.
    destruct (List.find (fun c => String.eqb (uid c) (uid contact)) data)
      as [c' | ] eqn:Hfind.
    + apply List.find_some in Hfind. tauto.
    + exfalso. pose proof (List.find_none _ _ Hfind c Hin) as Hne.
      cbn beta in Hne. rewrite Huid, String.eqb_refl in Hne. discriminate.
  - intros Hall. unfold current_contact.
    destruct (List.find (fun c => String.eqb (uid c) (uid contact)) data)
      as [c' | ] eqn:Hfind; [ | reflexivity].
    apply List.find_some in Hfind. destruct Hfind as [Hin Heq].
    apply String.eqb_eq in Heq. destruct (Hall c' Hin Heq).
Qed.

(** X6.  Two contact sensors have the same unique id exactly when their
    contacts have the same [uid]; a contact sensor takes the unique id
    of the global sensor exactly when its [uid] is ["carddav_next"]. *)
Theorem unique_id_injective (c1 c2 : Contact) :
  (unique_id c1 = unique_id c2 <-> uid c1 = uid c2)
  /\ (unique_id c1 = NextBirthdayEntity.unique_id <-> uid c1 = "carddav_next").
Proof.
  unfold unique_id, NextBirthdayEntity.unique_id. split; split.
  - apply append_cancel_r.
  - intros ->. reflexivity.
  - change "carddav_next_birthday" with ("carddav_next" +:+ "_birthday").
    apply append_cancel_r.
  - intros ->. reflexivity.
Qed.

End BirthdayEntityProperties.

(** ** More of the Aggregator *)

Section AggregatorMore.

Import CardDavBirthdaySensor CardDavNextBirthdaySensor Aggregate.

Lemma forallb_false {A : Type} (f : A -> bool) (l : list A) :
  forallb f l = false -> exists x, In x l /\ f x = false.
Proof.
  induction l as [ | x l IH]; cbn [forallb]; [discriminate | ].
  destruct (f x) eqn:Hx; cbn [andb].
  - intros H. destruct (IH H) as (y & Hy & Hfy). exists y. split; [right | ]; assumption.
  - intros _. exists x. split; [left; reflexivity | exact Hx].
Qed.

Lemma age_eqb_refl (x : option Z) : age_eqb x x = true.
Proof. apply age_eqb_eq. reflexivity. Qed.

Lemma tie_group_head (today : date) (contacts : list Contact)
    (m0 : item) (ms : list item) :
  tie_group today contacts = m0 :: ms ->
  exists c, In c contacts
    /\ _get_next_birthday (birthday c) today
       = Returns (Some (next_bday m0), age m0)
    /\ days_diff m0 = days_between (next_bday m0) today
    /\ days_diff m0 = min_days_until (survivors today contacts)
    /\ forall other, In other (survivors today contacts) ->
                     days_diff m0 <= days_diff other.
Proof.
  intros Hties.
  assert (Hin : In m0 (tie_group today contacts)) by (rewrite Hties; left; reflexivity).
  pose proof Hin as Hin'. apply In_tie_group in Hin'. destruct Hin' as [Hs Hmin].
  unfold tie_group in Hin. cbn zeta in Hin. apply List.filter_In in Hin.
  destruct Hin as [_ Heq]. apply Z.eqb_eq in Heq.
  apply In_survivors in Hs. destruct Hs as (c & Hc & Hp).
  apply project_Some in Hp. destruct Hp as (Hrun & _ & Hdays).
  exists c. repeat split; assumption.
Qed.

(** X7.  The Aggregator never raises: its three subscripts [[0]] are
    always in range.  Its answer has a date exactly when it has names;
    without a date the age is [None]; a list of ages has one age per name
    and holds two different ages. *)
Theorem aggregator_answer_shape (contacts : list Contact) (today : date) :
  exists d names a,
    _get_next_birthday_data contacts today = Returns (d, names, a)
    /\ (d = None <-> names = [])
    /\ (d = None -> a = OneAge None)
    /\ (forall l, a = AgeList l ->
          length l = length names
          /\ exists x y, In x l /\ In y l /\ x <> y).
Proof.
  rewrite get_next_birthday_data_eq.
  destruct (tie_group today contacts) as [ | m0 ms]; cbn [answer_of].
  - exists None, [], (OneAge None). split; [reflexivity | ].
    split; [tauto | ]. split; [reflexivity | discriminate].
  - eexists _, _, _. split; [reflexivity | ].
    split; [split; discriminate | ]. split; [discriminate | ].
    intros l.
    destruct (forallb (fun a => age_eqb a (age m0)) (List.map age (m0 :: ms)))
      eqn:Hb; [discriminate | ].
    intros [= <-].
    split; [cbn [length List.map]; rewrite !List.length_map; reflexivity | ].
    apply forallb_false in Hb. destruct Hb as (x & Hx & Hne).
    exists x, (age m0). split; [exact Hx | ]. split; [left; reflexivity | ].
    intros ->. rewrite age_eqb_refl in Hne. discriminate.
Qed.

(** X8.  On a valid day the date of the Aggregator is not before
    [today] and not after the date the Projector gives to any contact. *)
Theorem aggregate_date_is_earliest (contacts : list Contact) (today d : date)
    (names : list string) (a : ages) :
  valid_date today = true ->
  _get_next_birthday_data contacts today = Returns (Some d, names, a) ->
  date_le today d
  /\ forall c n a',
       In c contacts ->
       _get_next_birthday (birthday c) today = Returns (Some n, a') ->
       date_le d n.
Proof.
  intros Hv. rewrite get_next_birthday_data_eq.
  destruct (tie_group today contacts) as [ | m0 ms] eqn:Hties; [discriminate | ].
  cbn [answer_of]. intros [= <- _ _].
  destruct (tie_group_head today contacts m0 ms Hties)
    as (c0 & _ & Hrun0 & Hdays0 & _ & Hmin).
  pose proof (projector_date_valid _ _ _ _ Hv Hrun0) as Hvalid0.
  split.
  - apply toordinal_le_inv; [assumption | assumption | ].
    pose proof (projector_days _ _ _ _ Hv Hrun0). unfold days_between in *. lia.
  - intros c n a' Hc Hrun.
    pose proof (projector_date_valid _ _ _ _ Hv Hrun) as Hvalid.
    apply toordinal_le_inv; [assumption | assumption | ].
    assert (Hs : In (mkItem (days_between n today) n (name c) a')
                   (survivors today contacts)).
    { apply In_survivors. exists c. split; [exact Hc | ].
      unfold project. rewrite Hrun. reflexivity. }
    specialize (Hmin _ Hs). cbn [days_diff] in Hmin.
    unfold days_between in *. lia.
Qed.

Lemma aggregate_date_is_earliest_witness :
  date_le new_year_2025 (mkDate 2025 1 4)
  /\ forall c n a',
       In c contacts_ABC ->
       _get_next_birthday (birthday c) new_year_2025 = Returns (Some n, a') ->
       date_le (mkDate 2025 1 4) n.
Proof.
  apply (aggregate_date_is_earliest contacts_ABC new_year_2025 (mkDate 2025 1 4)
           ["A"] (OneAge (Some 35))); reflexivity.
Defined.

(** X9.  For a single contact the Aggregator repeats the Projector. *)
Theorem aggregate_of_one_contact (c : Contact) (today n : date) (a : option Z) :
  _get_next_birthday (birthday c) today = Returns (Some n, a) ->
  _get_next_birthday_data [c] today = Returns (Some n, [name c], OneAge a).
Proof.
  intros Hrun. rewrite get_next_birthday_data_eq.
  unfold tie_group. rewrite survivors_cons. unfold project. rewrite Hrun.
  change (survivors today []) with (@nil item).
  cbn [min_days_until List.map fold_right List.filter days_diff].
  rewrite Z.eqb_refl. cbn [answer_of List.map forallb age next_bday item_name].
  rewrite age_eqb_refl. reflexivity.
Qed.

Lemma aggregate_of_one_contact_witness :
  _get_next_birthday_data [mkContact "uid-a" "A" "1990-01-04"] new_year_2025
  = Returns (Some (mkDate 2025 1 4), ["A"], OneAge (Some 35)).
Proof.
  apply (aggregate_of_one_contact (mkContact "uid-a" "A" "1990-01-04")
           new_year_2025 (mkDate 2025 1 4) (Some 35)).
  reflexivity.
Defined.

Lemma survivors_app (today : date) (l1 l2 : list Contact) :
  survivors today (l1 ++ l2) = survivors today l1 ++ survivors today l2.
Proof.
  induction l1 as [ | c l IH]; [reflexivity | ].
  cbn [app]. rewrite !survivors_cons, IH.
  destruct (project today c); reflexivity.
Qed.

(** X10.  A contact whose birthday the Projector cannot read does not
    change the answer of the Aggregator, wherever it stands. *)
Theorem unreadable_contact_is_invisible (l1 l2 : list Contact) (c : Contact)
    (today : date) :
  _get_next_birthday (birthday c) today = Returns (None, None) ->
  _get_next_birthday_data (l1 ++ c :: l2) today
  = _get_next_birthday_data (l1 ++ l2) today.
Proof.
  intros Hrun. rewrite !get_next_birthday_data_eq. unfold tie_group.
  rewrite !survivors_app, survivors_cons, (project_None today c Hrun).
  reflexivity.
Qed.

Lemma unreadable_contact_is_invisible_witness :
  _get_next_birthday_data
    ([mkContact "uid-a" "A" "1990-01-04"]
     ++ mkContact "uid-y" "Y" "--01-02" :: [mkContact "uid-b" "B" "1985-01-06"])
    new_year_2025
  = _get_next_birthday_data
      ([mkContact "uid-a" "A" "1990-01-04"]
       ++ [mkContact "uid-b" "B" "1985-01-06"])
      new_year_2025.
Proof.
  apply (unreadable_contact_is_invisible
           [mkContact "uid-a" "A" "1990-01-04"]
           [mkContact "uid-b" "B" "1985-01-06"]
           (mkContact "uid-y" "Y" "--01-02") new_year_2025).
  reflexivity.
Defined.

(** X11.  On a valid day, with both readings of the clock on that day,
    the attributes of the global sensor are always produced; [days_until]
    is the least [days_until] of the contacts with a date and lies
    between 0 and 365, and it is absent exactly when no name is listed. *)
Theorem next_birthday_days_until (contacts : list Contact) (today : date) :
  valid_date today = true ->
  exists attrs,
    NextBirthdayEntity.extra_state_attributes contacts today today
    = Returns attrs
    /\ (forall k, NextBirthdayEntity.days_until attrs = Some k ->
          0 <= k <= 365
          /\ k = min_days_until (survivors today contacts))
    /\ (NextBirthdayEntity.days_until attrs = None <->
        NextBirthdayEntity.names attrs = []).
Proof.
  intros Hv. unfold NextBirthdayEntity.extra_state_attributes.
  rewrite get_next_birthday_data_eq.
  destruct (tie_group today contacts) as [ | m0 ms] eqn:Hties;
    cbn [answer_of bind]; eexists; (split; [reflexivity | ]);
    cbn [NextBirthdayEntity.days_until NextBirthdayEntity.names].
  - split; [discriminate | tauto].
  - split; [ | split; discriminate].
    intros k [= <-].
    destruct (tie_group_head today contacts m0 ms Hties)
      as (c0 & _ & Hrun0 & Hdays0 & Hmin & _).
    split; [eapply projector_days; eassumption | congruence].
Qed.

Lemma next_birthday_days_until_witness :
  exists attrs,
    NextBirthdayEntity.extra_state_attributes contacts_ABC new_year_2025
      new_year_2025
    = Returns attrs
    /\ (forall k, NextBirthdayEntity.days_until attrs = Some k ->
          0 <= k <= 365
          /\ k = min_days_until (survivors new_year_2025 contacts_ABC))
    /\ (NextBirthdayEntity.days_until attrs = None <->
        NextBirthdayEntity.names attrs = []).
Proof.
  apply (next_birthday_days_until contacts_ABC new_year_2025). reflexivity.
Defined.

End AggregatorMore.

(** ** More of the coordinator *)

Section CoordinatorMore.

Import vobject CardDavCoordinator Cards.

Variable fromstring : string -> result ET.Element.
Variable readOne : string -> result Component.

Lemma length_omap_le {A B : Type} (f : A -> option B) (l : list A) :
  (length (omap f l) <= length l)%nat.
Proof.
  induction l as [ | x l IH]; [reflexivity | ].
  change (omap f (x :: l))
    with (match f x with Some y => y :: omap f l | None => omap f l end).
  destruct (f x); cbn [length]; lia.
Qed.

Lemma findall_descendants_tag (qname : string) (root elem : ET.Element) :
  In elem (ET.findall_descendants qname root) -> ET.tag elem = qname.
Proof.
  unfold ET.findall_descendants. intros Hin. apply List.filter_In in Hin.
  destruct Hin as [_ Heq]. apply String.eqb_eq in Heq. exact Heq.
Qed.

(** X12.  An exception of the XML parser, [ParseError] or any other
    [Exception], fails the refresh cycle with [UpdateFailed] whatever the
    status; [_parse_contacts] itself turns only [ParseError] into
    [UpdateFailed] and lets another exception pass as it is.  The
    exceptions of [exn] are of class [Exception]: a cancellation of the
    awaited request is none of them, and nothing is said of it. *)
Theorem parser_exception_fails_cycle (status : Z) (xml_text : string)
    (e : exn) :
  fromstring xml_text = Raises e ->
  _parse_contacts fromstring readOne xml_text
  = Raises (if is_ParseError e then UpdateFailed else e)
  /\ _async_update_data fromstring readOne (Returns (status, xml_text))
     = Raises UpdateFailed.
Proof.
  intros Hparse.
  assert (H : _parse_contacts fromstring readOne xml_text
              = Raises (if is_ParseError e then UpdateFailed else e)).
  { unfold _parse_contacts. rewrite Hparse. cbn [bind try_except].
    destruct (is_ParseError e); reflexivity. }
  split; [exact H | ].
  unfold _async_update_data, _fetch_contacts. cbn [bind].
  destruct (negb (status =? 207) && negb (status =? 200)).
  - reflexivity.
  - rewrite H. reflexivity.
Qed.

(** X13.  A status other than 200 and 207 fails the fetch without
    looking at the body; with 200 or 207 the fetch is the parse of the
    body, and the cycle returns the records of an envelope that parses. *)
Theorem fetch_needs_success_status (status : Z) (xml_text : string) :
  (status <> 200 -> status <> 207 ->
   _fetch_contacts fromstring readOne (Returns (status, xml_text))
   = Raises UpdateFailed)
  /\ (status = 200 \/ status = 207 ->
      _fetch_contacts fromstring readOne (Returns (status, xml_text))
      = _parse_contacts fromstring readOne xml_text)
  /\ (status = 200 \/ status = 207 ->
      forall root, fromstring xml_text = Returns root ->
      _async_update_data fromstring readOne (Returns (status, xml_text))
      = Returns (omap (card_record readOne)
                   (ET.findall_descendants address_data root))).
Proof.
  unfold _async_update_data, _fetch_contacts. cbn [bind].
  split; [ | split].
  - intros H200 H207.
    replace (status =? 207) with false by lia.
    replace (status =? 200) with false by lia. reflexivity.
  - intros [-> | ->]; reflexivity.
  - intros Hs root Hroot.
    rewrite (parse_contacts_of_root fromstring readOne xml_text root Hroot).
    destruct Hs as [-> | ->]; reflexivity.
Qed.

(** X14.  The parser returns at most one record per [address-data]
    element of the envelope, and each record is that of an element with
    the CardDAV [address-data] tag. *)
Theorem one_record_per_element (xml_text : string) (cs : list Contact) :
  _parse_contacts fromstring readOne xml_text = Returns cs ->
  exists root,
    fromstring xml_text = Returns root
    /\ (length cs
        <= length (ET.findall_descendants address_data root))%nat
    /\ forall c, In c cs ->
         exists elem, In elem (ET.findall_descendants address_data root)
                      /\ ET.tag elem = address_data
                      /\ card_record readOne elem = Some c.
Proof.
  intros Hrun. apply parse_contacts_returns in Hrun.
  destruct Hrun as (root & Hroot & ->). exists root.
  split; [exact Hroot | ]. split; [apply length_omap_le | ].
  intros c Hin. apply list_elem_of_In, list_elem_of_omap in Hin.
  destruct Hin as (elem & Helem & Hrec). apply list_elem_of_In in Helem.
  exists elem. split; [exact Helem | ]. split; [ | exact Hrec].
  eapply findall_descendants_tag. exact Helem.
Qed.

End CoordinatorMore.

Lemma parser_exception_fails_cycle_witness :
  CardDavCoordinator._parse_contacts (fun _ => Raises ValueError)
    Example.readOne "<multistatus/>"
  = Raises ValueError
  /\ CardDavCoordinator._async_update_data (fun _ => Raises ValueError)
       Example.readOne (Returns (207, "<multistatus/>"))
     = Raises UpdateFailed.
Proof.
  apply (parser_exception_fails_cycle (fun _ => Raises ValueError)
           Example.readOne 207 "<multistatus/>" ValueError).
  reflexivity.
Defined.

Lemma one_record_per_element_witness :
  exists root,
    Example.fromstring "<multistatus/>" = Returns root
    /\ (length [mkContact "uid-bob" "Bob" "1985-01-06"]
        <= length (ET.findall_descendants CardDavCoordinator.address_data root))%nat
    /\ forall c, In c [mkContact "uid-bob" "Bob" "1985-01-06"] ->
         exists elem,
           In elem (ET.findall_descendants CardDavCoordinator.address_data root)
           /\ ET.tag elem = CardDavCoordinator.address_data
           /\ Cards.card_record Example.readOne elem = Some c.
Proof.
  apply (one_record_per_element Example.fromstring Example.readOne
           "<multistatus/>").
  reflexivity.
Defined.

(** ** Setting up and unloading an entry *)

Section StoreProperties.

Import Integration.

Context {Coordinator : Type}.

Implicit Types (hass_data : gmap string (gmap string Coordinator)).

(** X15.  After a first refresh that succeeds, setup returns [True] and
    the coordinator is found under the entry id; the other entries of the
    domain and the other domains are as before.  A first refresh that
    raises ends the setup with nothing stored. *)
Theorem setup_stores_coordinator (coordinator : Coordinator)
    (first_refresh : result (list Contact)) (entry_id : string) hass_data :
  (forall contacts, first_refresh = Returns contacts ->
     exists hass_data',
       async_setup_entry Coordinator coordinator first_refresh entry_id hass_data
       = Done (true, hass_data')
       /\ coordinator_of Coordinator entry_id hass_data' = Some coordinator
       /\ (forall other, other <> entry_id ->
             coordinator_of Coordinator other hass_data'
             = coordinator_of Coordinator other hass_data)
       /\ (forall domain, domain <> DOMAIN ->
             hass_data' !! domain = hass_data !! domain))
  /\ (forall e, first_refresh = Raises e ->
        async_setup_entry Coordinator coordinator first_refresh entry_id hass_data
        = Failed (RefreshError e)).
Proof.
  split; [ | intros e ->; reflexivity].
  intros contacts ->. unfold async_setup_entry, coordinator_of.
  destruct (hass_data !! DOMAIN) as [entries | ] eqn:Hdom.
  - rewrite Hdom. eexists. split; [reflexivity | ].
    rewrite lookup_insert_eq. split; [apply lookup_insert_eq | ].
    split.
    + intros other Hne. rewrite lookup_insert_ne by congruence. reflexivity.
    + intros domain Hne. rewrite lookup_insert_ne by congruence. reflexivity.
  - rewrite lookup_insert_eq. eexists. split; [reflexivity | ].
    rewrite lookup_insert_eq. split; [apply lookup_insert_eq | ].
    split.
    + intros other Hne. rewrite lookup_insert_ne by congruence.
      apply lookup_empty.
    + intros domain Hne. rewrite !lookup_insert_ne by congruence. reflexivity.
Qed.

(** X16.  Unloading removes the coordinator of the entry and no other
    when the platforms unload; it changes nothing and returns [False]
    when they do not; and [pop] raises [KeyError] for an entry that was
    never set up. *)
Theorem unload_removes_coordinator (unload_ok : bool) (entry_id : string)
    hass_data :
  (unload_ok = false ->
   async_unload_entry Coordinator unload_ok entry_id hass_data
   = Done (false, hass_data))
  /\ (unload_ok = true ->
      forall coordinator,
        coordinator_of Coordinator entry_id hass_data = Some coordinator ->
        exists hass_data',
          async_unload_entry Coordinator unload_ok entry_id hass_data
          = Done (true, hass_data')
          /\ coordinator_of Coordinator entry_id hass_data' = None
          /\ forall other, other <> entry_id ->
               coordinator_of Coordinator other hass_data'
               = coordinator_of Coordinator other hass_data)
  /\ (unload_ok = true ->
      coordinator_of Coordinator entry_id hass_data = None ->
      exists key,
        async_unload_entry Coordinator unload_ok entry_id hass_data
        = Failed (KeyError key)).
Proof.
  unfold async_unload_entry, coordinator_of. split; [ | split].
  - intros ->. reflexivity.
  - intros -> coordinator Hco.
    destruct (hass_data !! DOMAIN) as [entries | ]; [ | discriminate].
    rewrite Hco. eexists. split; [reflexivity | ].
    rewrite lookup_insert_eq. split; [apply lookup_delete_eq | ].
    intros other Hne. apply lookup_delete_ne. congruence.
  - intros -> Hco.
    destruct (hass_data !! DOMAIN) as [entries | ]; [ | eauto].
    rewrite Hco. eauto.
Qed.

(** X17.  Setting up an entry that is not yet there and unloading it
    leaves the store of a domain that was there as it was. *)
Theorem setup_then_unload (coordinator : Coordinator)
    (contacts : list Contact) (entry_id : string) hass_data
    (entries : gmap string Coordinator) :
  hass_data !! DOMAIN = Some entries ->
  entries !! entry_id = None ->
  exists hass_data',
    async_setup_entry Coordinator coordinator (Returns contacts) entry_id hass_data
    = Done (true, hass_data')
    /\ async_unload_entry Coordinator true entry_id hass_data'
       = Done (true, hass_data).
Proof.
  intros Hdom Hfresh. unfold async_setup_entry, async_unload_entry.
  rewrite Hdom. rewrite Hdom. eexists. split; [reflexivity | ].
  rewrite lookup_insert_eq, lookup_insert_eq.
  rewrite delete_insert_id by assumption.
  rewrite insert_insert_eq, insert_id by assumption. reflexivity.
Qed.

End StoreProperties.

Lemma setup_then_unload_witness :
  exists hass_data' : gmap string (gmap string nat),
    Integration.async_setup_entry nat 7%nat (Returns []) "entry-2"
      {[ Integration.DOMAIN := {[ "entry-1" := 3%nat ]} ]}
    = Done (true, hass_data')
    /\ Integration.async_unload_entry nat true "entry-2" hass_data'
       = Done (true, {[ Integration.DOMAIN := {[ "entry-1" := 3%nat ]} ]}).
Proof.
  apply (setup_then_unload 7%nat [] "entry-2"
           {[ Integration.DOMAIN := {[ "entry-1" := 3%nat ]} ]}
           {[ "entry-1" := 3%nat ]}).
  - reflexivity.
  - reflexivity.
Defined.

(** ** The config flow *)

Section ConfigFlowProperties.

Import ConfigFlow.

Variable get : string -> string -> string -> bool -> outcome transport_error Z.

(** X18.  The flow creates the entry exactly when the request comes back
    with a status that is not 401 and is below 500; the title is then
    the user name and the data is the input. *)
Theorem entry_created_iff_status_accepted (data data' : user_input)
    (title : string) :
  async_step_user get (Some data) = CreateEntry title data'
  <-> (exists status, probe get data = Done status
                      /\ status <> 401 /\ status < 500)
      /\ title = username data /\ data' = data.
Proof.
  unfold async_step_user, validate_input, probe.
  destruct (get (url data) (username data) (password data) _)
    as [status | [ | ]].
  - destruct (Z.eqb_spec status 401) as [H401 | H401].
    + split; [discriminate | ]. intros ((s & [= <-] & Hne & _) & _). lia.
    + destruct (Z.leb_spec 500 status) as [H500 | H500].
      * split; [discriminate | ]. intros ((s & [= <-] & _ & Hlt) & _). lia.
      * split.
        -- intros [= <- <-]. split; [ | split; reflexivity].
           exists status. split; [reflexivity | lia].
        -- intros (_ & -> & ->). reflexivity.
  - split; [discriminate | ]. intros ((s & H & _) & _). discriminate.
  - split; [discriminate | ]. intros ((s & H & _) & _). discriminate.
Qed.

(** X19.  The form reports [invalid_auth] exactly for status 401, and
    [cannot_connect] exactly for a status of 500 or more or a client
    error of the transport; without input the form has no error. *)
Theorem form_errors (data : user_input) :
  (async_step_user get (Some data) = ShowForm {[ "base" := "invalid_auth" ]}
   <-> probe get data = Done 401)
  /\ (async_step_user get (Some data)
      = ShowForm {[ "base" := "cannot_connect" ]}
      <-> probe get data = Failed ClientError
          \/ exists status, probe get data = Done status /\ 500 <= status)
  /\ async_step_user get None = ShowForm ∅.
Proof.
  assert (Hne1 : ({[ "base" := "cannot_connect" ]} : gmap string string)
                 <> {[ "base" := "invalid_auth" ]}).
  { intros H. apply (f_equal (fun m => m !! "base")) in H.
    rewrite !lookup_singleton_eq in H. discriminate. }
  assert (Hne2 : ({[ "base" := "unknown" ]} : gmap string string)
                 <> {[ "base" := "invalid_auth" ]}).
  { intros H. apply (f_equal (fun m => m !! "base")) in H.
    rewrite !lookup_singleton_eq in H. discriminate. }
  assert (Hne3 : ({[ "base" := "unknown" ]} : gmap string string)
                 <> {[ "base" := "cannot_connect" ]}).
  { intros H. apply (f_equal (fun m => m !! "base")) in H.
    rewrite !lookup_singleton_eq in H. discriminate. }
  unfold async_step_user, validate_input, probe.
  split; [ | split; [ | reflexivity]].
  - destruct (get (url data) (username data) (password data) _)
      as [status | [ | ]].
    + destruct (Z.eqb_spec status 401) as [-> | H401]; [tauto | ].
      destruct (Z.leb_spec 500 status) as [H500 | H500].
      * split; [intros [= H]; congruence | intros [= ->]; lia].
      * split; [discriminate | intros [= ->]; lia].
    + split; [intros [= H]; congruence | discriminate].
    + split; [intros [= H]; congruence | discriminate].
  - destruct (get (url data) (username data) (password data) _)
      as [status | [ | ]].
    + destruct (Z.eqb_spec status 401) as [-> | H401].
      * split; [intros [= H]; congruence | ].
        intros [H | (s & [= <-] & Hs)]; [discriminate | lia].
      * destruct (Z.leb_spec 500 status) as [H500 | H500].
        -- split; [ | reflexivity]. intros _. right. eauto.
        -- split; [discriminate | ].
           intros [H | (s & [= <-] & Hs)]; [discriminate | lia].
    + tauto.
    + split; [intros [= H]; congruence | ].
      intros [H | (s & H & _)]; discriminate.
Qed.

End ConfigFlowProperties.

(** ** The sensor platform *)

Section PlatformProperties.

Import SensorPlatform.

Lemma update_fold (data : list Contact) (entities : list entity)
    (created : gset string) :
  exists new,
    fold_left update_step data (entities, created)
    = (entities ++ new, created ∪ list_to_set (List.map uid data))
    /\ NoDup (entity_uids new)
    /\ forall u, u ∈ entity_uids new <->
                 u ∈ List.map uid data /\ u ∉ created.
Proof.
  revert entities created. induction data as [ | c l IH]; intros entities created.
  - exists []. cbn [fold_left List.map list_to_set]. rewrite app_nil_r.
    split; [f_equal; set_solver | ]. split; [constructor | ].
    intros u. cbn. set_solver.
  - cbn [fold_left List.map list_to_set]. unfold update_step at 2.
    cbn [fst snd].
    destruct (bool_decide_reflect (uid c ∈ created)) as [Hin | Hnot].
    + destruct (IH entities created) as (new & -> & Hnd & Huids).
      exists new. split; [f_equal; set_solver | ]. split; [exact Hnd | ].
      intros u. rewrite Huids. set_solver.
    + destruct (IH (entities ++ [BirthdaySensor c]) ({[uid c]} ∪ created))
        as (new & -> & Hnd & Huids).
      exists (BirthdaySensor c :: new).
      split; [rewrite <- app_assoc; f_equal; set_solver | ].
      change (entity_uids (BirthdaySensor c :: new))
        with (uid c :: entity_uids new).
      split.
      * constructor; [ | exact Hnd]. rewrite Huids. set_solver.
      * intros u. rewrite elem_of_cons, Huids.
        destruct (decide (u = uid c)) as [-> | Hne]; set_solver.
Qed.

Lemma update_fold_seen (data : list Contact) (entities : list entity)
    (created : gset string) :
  (forall c, c ∈ data -> uid c ∈ created) ->
  fold_left update_step data (entities, created) = (entities, created).
Proof.
  induction data as [ | c l IH]; intros Hall; [reflexivity | ].
  cbn [fold_left]. unfold update_step at 2. cbn [snd].
  rewrite bool_decide_eq_true_2 by (apply Hall; left).
  apply IH. intros c' Hc'. apply Hall. right. exact Hc'.
Qed.

Lemma setup_fold (data : list Contact) (entities : list entity)
    (created : gset string) :
  fold_left setup_step data (entities, created)
  = (entities ++ List.map BirthdaySensor data,
     created ∪ list_to_set (List.map uid data)).
Proof.
  revert entities created. induction data as [ | c l IH]; intros entities created.
  - cbn [fold_left List.map list_to_set]. rewrite app_nil_r.
    f_equal. set_solver.
  - cbn [fold_left List.map list_to_set]. unfold setup_step at 2.
    cbn [fst snd]. rewrite IH, <- app_assoc. f_equal. set_solver.
Qed.

Lemma entity_uids_sensors (data : list Contact) (rest : list entity) :
  entity_uids (List.map BirthdaySensor data ++ rest)
  = List.map uid data ++ entity_uids rest.
Proof.
  induction data as [ | c l IH]; [reflexivity | ].
  cbn [List.map app].
  change (entity_uids (BirthdaySensor c :: List.map BirthdaySensor l ++ rest))
    with (uid c :: entity_uids (List.map BirthdaySensor l ++ rest)).
  rewrite IH. reflexivity.
Qed.

(** X20.  An update hands over sensors for the contacts whose [uid] was
    not seen before, one per [uid] even when the data repeats it, and
    for no other; afterwards every [uid] of the data counts as seen. *)
Theorem update_adds_only_new_contacts (data : list Contact)
    (created : gset string) :
  NoDup (entity_uids (fst (_on_coordinator_update data created)))
  /\ (forall u, u ∈ entity_uids (fst (_on_coordinator_update data created))
                <-> u ∈ List.map uid data /\ u ∉ created)
  /\ snd (_on_coordinator_update data created)
     = created ∪ list_to_set (List.map uid data).
Proof.
  unfold _on_coordinator_update. destruct data as [ | c l].
  - cbn [fst snd List.map list_to_set]. split; [constructor | ].
    split; [intros u; cbn; set_solver | set_solver].
  - destruct (update_fold (c :: l) [] created) as (new & -> & Hnd & Huids).
    cbn [fst snd app]. split; [exact Hnd | ]. split; [exact Huids | reflexivity].
Qed.

(** X21.  An update whose contacts were all seen adds nothing; such is
    the update that follows the setup with the same data.  The setup
    itself makes one sensor per record, repeated [uid]s included. *)
Theorem update_after_setup_adds_nothing (data : list Contact)
    (created : gset string) :
  ((forall c, c ∈ data -> uid c ∈ created) ->
   _on_coordinator_update data created = ([], created))
  /\ _on_coordinator_update data (snd (async_setup_entry data))
     = ([], snd (async_setup_entry data))
  /\ entity_uids (fst (async_setup_entry data)) = List.map uid data.
Proof.
  assert (Hseen : forall cr, (forall c, c ∈ data -> uid c ∈ cr) ->
                    _on_coordinator_update data cr = ([], cr)).
  { intros cr Hall. unfold _on_coordinator_update.
    destruct data as [ | c l]; [reflexivity | ].
    apply update_fold_seen, Hall. }
  unfold async_setup_entry. rewrite setup_fold. cbn [fst snd app].
  split; [apply Hseen | ]. split.
  - apply Hseen. intros c Hc. apply elem_of_union_r, elem_of_list_to_set.
    apply list_elem_of_fmap. eauto.
  - rewrite entity_uids_sensors. cbn. apply app_nil_r.
Qed.

End PlatformProperties.
